(** * Career-Clarity: the posting-pattern detector, embedded and verified

    Shallow embedding of the pattern detector service (the second module of
    [backend/src/controllers/jobController.js] in the sources, which the
    controller requires as [services/patternDetector]): name normalisation,
    the pattern scan and its scoring rules, the two persistence calls, and
    the cross-company roll-up, together with the properties its
    specification states about it.

    Conventions.
    - A JavaScript string is a sequence of UTF-16 code units.  The model keeps
      the code units below 256 (Latin-1), one [ascii] each; [toLowerCase],
      the regular-expression class [\s] and [trim] are the restrictions of
      the ECMAScript definitions to that range.
    - An ISO-8601 timestamp written by [toISOString] and read back by
      [new Date(...)] is the same number of milliseconds since the epoch, so a
      timestamp is a [Z].
    - Numbers are IEEE doubles in the source.  Every quotient formed by the
      code has integer operands far below 2^53, so the rational value decides
      each comparison and rounding the code makes; doubles are modelled by [Q]
      ([NaN] is explicit where the code can produce it).
    - A query or a scan returns its whole result in one page. *)

From Stdlib Require Import ZArith QArith Qround String Ascii List Lia DecimalString.
From stdpp Require Import gmap gmultiset strings list sorting.

Local Open Scope Z_scope.

(** ** Text primitives *)

Module Text.

Abbreviation text := (list ascii).

Definition code (c : ascii) : N := N_of_ascii c.

(** [\s] of ECMAScript regular expressions, which is also the set removed by
    [String.prototype.trim]: TAB, LF, VT, FF, CR, SPACE, NBSP below 256. *)
Definition isWhiteSpace (c : ascii) : bool :=
  let n := code c in
  ((9 <=? n) && (n <=? 13) || (n =? 32) || (n =? 160))%N.

(** [String.prototype.toLowerCase] on one code unit: A-Z, and the Latin-1
    capitals U+00C0..U+00DE except the multiplication sign U+00D7. *)
Definition lowerUnit (c : ascii) : ascii :=
  let n := code c in
  if ((65 <=? n) && (n <=? 90) || (192 <=? n) && (n <=? 222) && negb (n =? 215))%N
  then ascii_of_N (n + 32) else c.

Definition toLowerCase (s : text) : text := map lowerUnit s.

(** The class [[.,\/#!$%\^&\*;:{}=\-_`~()]]. *)
Definition punctuation : text := list_ascii_of_string ".,/#!$%^&*;:{}=-_`~()".

Definition isPunctuation (c : ascii) : bool := existsb (Ascii.eqb c) punctuation.

(** [.replace(/\s+/g, ' ')]: every maximal run of white space becomes one
    SPACE.  [inRun] tells that the previous unit belonged to the run being
    replaced. *)
Fixpoint collapseFrom (inRun : bool) (s : text) : text :=
  match s with
  | [] => []
  | c :: r =>
      if isWhiteSpace c
      then (if inRun then collapseFrom true r else " "%char :: collapseFrom true r)
      else c :: collapseFrom false r
  end.

Definition collapseWhitespace (s : text) : text := collapseFrom false s.

(** [.replace(/[...]/g, '')] with the punctuation class. *)
Definition stripPunctuation (s : text) : text :=
  List.filter (fun c => negb (isPunctuation c)) s.

Fixpoint dropWhile (p : ascii -> bool) (s : text) : text :=
  match s with
  | [] => []
  | c :: r => if p c then dropWhile p r else s
  end.

Definition suffixTokens : list text :=
  map list_ascii_of_string ["inc"; "corp"; "llc"; "ltd"]%string.

(** Case folding of the [i] flag (no [u] flag): only A-Z and a-z are
    identified with each other, a unit above 127 never matches an ASCII
    letter. *)
Definition foldUnit (c : ascii) : ascii :=
  let n := code c in
  if ((65 <=? n) && (n <=? 90))%N then ascii_of_N (n + 32) else c.

Definition textEqb (a b : text) : bool := bool_decide (a = b).

(** Does [/\s+inc$|\s+corp$|\s+llc$|\s+ltd$/i] match starting at the head of
    [s]?  The greedy [\s+] takes the whole run of white space; what follows
    must be one of the tokens and then the end of the input. *)
Definition suffixMatchesAt (s : text) : bool :=
  match s with
  | [] => false
  | c :: r =>
      isWhiteSpace c &&
      existsb (textEqb (map foldUnit (dropWhile isWhiteSpace r))) suffixTokens
  end.

(** [.replace(/\s+inc$|.../i, '')] (no [g] flag): the leftmost match is
    removed; since every alternative ends in [$] the match runs to the end of
    the input. *)
Fixpoint stripSuffix (s : text) : text :=
  match s with
  | [] => []
  | c :: r => if suffixMatchesAt s then [] else c :: stripSuffix r
  end.

(** [.trim()] *)
Definition trim (s : text) : text :=
  rev (dropWhile isWhiteSpace (rev (dropWhile isWhiteSpace s))).

Definition normalizeText (s : text) : text :=
  trim (stripSuffix (stripPunctuation (collapseWhitespace (toLowerCase s)))).

End Text.

(** [normalizeCompanyName] of patternDetector.js. *)
Definition normalizeCompanyName (company : string) : string :=
  string_of_list_ascii (Text.normalizeText (list_ascii_of_string company)).


(** ** The similarity engine *)

Module StringSimilarity.
Import Text.

(** The 2-unit substrings [s.substring(i, i + 2)] for [i = 0 .. length - 2]. *)
Fixpoint bigrams (s : text) : list text :=
  match s with
  | a :: (b :: _) as r => [a; b] :: bigrams r
  | _ => []
  end.

Definition countOf (m : gmap text nat) (bigram : text) : nat :=
  default 0%nat (m !! bigram).

(** [firstBigrams.set(bigram, has(bigram) ? get(bigram) + 1 : 1)] *)
Definition addBigram (m : gmap text nat) (bigram : text) : gmap text nat :=
  <[bigram := S (countOf m bigram)]> m.

Definition firstBigrams (first : text) : gmap text nat :=
  foldl addBigram ∅ (bigrams first).

(** One turn of the second loop: a bigram of [second] still available in the
    map is consumed and counted. *)
Definition matchBigram (st : gmap text nat * nat) (bigram : text)
  : gmap text nat * nat :=
  let count := countOf st.1 bigram in
  if (0 <? count)%nat then (<[bigram := (count - 1)%nat]> st.1, S st.2) else st.

Definition intersectionSize (first second : text) : nat :=
  (foldl matchBigram (firstBigrams first, 0%nat) (bigrams second)).2.

Definition removeWhitespace (s : text) : text :=
  List.filter (fun c => negb (isWhiteSpace c)) s.

(** Modelled from the spec: the package [string-similarity] that
    patternDetector.js requires is not part of the sources.  The spec asks for
    a bigram-based similarity in [0,1]; this is the Sorensen-Dice coefficient
    over the bigrams of the two strings with white space removed, twice the
    number of shared bigrams over the total number of bigrams, 1 for equal
    strings and 0 when either has fewer than two units. *)
Definition compareTwoStrings (first second : string) : Q :=
  let first := removeWhitespace (list_ascii_of_string first) in
  let second := removeWhitespace (list_ascii_of_string second) in
  if bool_decide (first = second) then 1%Q
  else if (length first <? 2)%nat || (length second <? 2)%nat then 0%Q
  else (2 * inject_Z (Z.of_nat (intersectionSize first second))
        / inject_Z (Z.of_nat (length first + length second - 2)))%Q.

End StringSimilarity.

Definition toLowerCase (s : string) : string :=
  string_of_list_ascii (Text.toLowerCase (list_ascii_of_string s)).

(** ** Numbers *)

Module JS.

(** A double that may be [NaN]; reading a property an object does not have
    gives [undefined], here [None]. *)
Inductive number := NaN | Num (q : Q).

Definition toNumber (v : option number) : number :=
  match v with Some n => n | None => NaN end.

(** [a / b].  The code never divides by zero; the model answers [NaN]
    there. *)
Definition div (a b : number) : number :=
  match a, b with
  | Num x, Num y => if Qeq_bool y 0 then NaN else Num (x / y)
  | _, _ => NaN
  end.

Definition sub (a b : number) : number :=
  match a, b with Num x, Num y => Num (x - y) | _, _ => NaN end.

Definition add (a b : number) : number :=
  match a, b with Num x, Num y => Num (x + y) | _, _ => NaN end.

Definition mul (a b : number) : number :=
  match a, b with Num x, Num y => Num (x * y) | _, _ => NaN end.

(** [a < b]: false as soon as one side is [NaN]. *)
Definition lt (a b : number) : bool :=
  match a, b with
  | Num x, Num y => negb (Qle_bool y x)
  | _, _ => false
  end.

Definition min (a b : number) : number :=
  match a, b with
  | Num x, Num y => Num (if Qle_bool x y then x else y)
  | _, _ => NaN
  end.

(** [Math.round]: the nearest integer, halves upwards. *)
Definition roundQ (q : Q) : Z := Qfloor (q + (1 # 2)).

Definition round (a : number) : number :=
  match a with Num x => Num (inject_Z (roundQ x)) | NaN => NaN end.

Definition ofZ (z : Z) : number := Num (inject_Z z).
Definition ofNat (n : nat) : number := ofZ (Z.of_nat n).

(** [`${n}`] for an integer. *)
Definition showZ (z : Z) : string := NilZero.string_of_int (Z.to_int z).

End JS.

(** [daysDifference] of patternDetector.js. *)
Definition daysDifference (date1 date2 : Z) : Z :=
  let diffTime := Z.abs (date2 - date1) in
  Qceiling (inject_Z diffTime / inject_Z (1000 * 60 * 60 * 24)).

(** ** Data model *)

(** An item of the table [JOB_PATTERNS_TABLE].  [p_lastSeen] is [None] when the
    attribute is missing or empty, which is what [posting.lastSeen || ...]
    tests. *)
Record PostingRecord := mkPosting {
  p_id : string;
  p_companyName : string;
  p_jobTitle : string;
  p_location : string;
  p_jobDescription : string;
  p_firstSeen : Z;
  p_lastSeen : option Z;
  p_similarJobs : list string;
  p_userId : string
}.

(** An element of the array [similarJobs]. *)
Record SimilarJob := mkSimilarJob {
  sj_id : string;
  sj_jobTitle : string;
  sj_similarity : Z;
  sj_firstSeen : Z;
  sj_lastSeen : option Z
}.

(** The object [patterns]. *)
Record Patterns := mkPatterns {
  companyName : string;
  recentPostings : nat;
  similarJobCount : nat;
  longestOpenDays : Z;
  recycledDescriptions : bool;
  averagePostingFrequency : Z;
  suspiciousPatterns : list string;
  confidenceScore : Z
}.

(** The argument [companyData]; [userId] may be absent. *)
Record CompanyData := mkCompanyData {
  company : string;
  jobTitle : string;
  location : string;
  jobDescription : string;
  userId : option string
}.

(** What [detectCompanyPatterns] returns. *)
Record Detection := mkDetection {
  d_id : string;
  d_patterns : Patterns;
  d_similarJobs : list SimilarJob;
  d_timestamp : Z
}.

(** The object written to S3: its key
    [company-patterns/${normalizedCompany}-${timestamp}.json] is kept as the
    pair it is built from, its JSON body as the value that is serialised. *)
Record S3Object := mkS3Object {
  o_company : string;
  o_timestamp : Z;
  o_patterns : Patterns;
  o_similarJobs : list SimilarJob
}.

Definition SIMILARITY_THRESHOLD : Q := 85 # 100.
Definition SUSPICIOUS_REPOST_DAYS : Z := 90.

(** ** The world: the two stores, the clock, the identifier source *)

(** Calls to the AWS clients, as attempted. *)
Inductive Call :=
| Query (companyName : string)
| Scan
| Put (item : PostingRecord)
| PutObject (object : S3Object).

Inductive Exn :=
| Rejected (c : Call)
| TypeError.

Inductive outcome (A : Type) :=
| Returned (a : A)
| Thrown (e : Exn).
Arguments Returned {A} a.
Arguments Thrown {A} e.

(** What the environment decides: the value of the [k]-th reading of the
    clock, the [k]-th identifier drawn by [uuidv4], and whether the [k]-th
    call to an AWS client is rejected. *)
Record Oracle := mkOracle {
  timeAt : nat -> Z;
  uuidAt : nat -> string;
  rejects : nat -> bool
}.

(** [calls] lists the calls made so far, the latest first, each with its
    success. *)
Record World := mkWorld {
  table : list PostingRecord;
  bucket : list S3Object;
  calls : list (Call * bool);
  clockReads : nat;
  uuidDraws : nat
}.

Definition M (A : Type) : Type := World -> outcome A * World.

Definition ret {A} (a : A) : M A := fun w => (Returned a, w).

Definition bind {A B} (m : M A) (k : A -> M B) : M B :=
  fun w =>
    match m w with
    | (Returned a, w') => k a w'
    | (Thrown e, w') => (Thrown e, w')
    end.

Declare Scope detector_scope.
Delimit Scope detector_scope with detector.
Notation "x <- c ;; k" := (bind c (fun x => k))
  (at level 100, c at next level, right associativity) : detector_scope.

(** [DocumentClient.put]: the item replaces the one with the same key [id],
    or is added. *)
Fixpoint putItem (item : PostingRecord) (t : list PostingRecord)
  : list PostingRecord :=
  match t with
  | [] => [item]
  | r :: t' =>
      if String.eqb (p_id r) (p_id item) then item :: t'
      else r :: putItem item t'
  end.

(** [S3.putObject]: the object replaces the one with the same key. *)
Fixpoint putObjectAt (o : S3Object) (b : list S3Object) : list S3Object :=
  match b with
  | [] => [o]
  | x :: b' =>
      if String.eqb (o_company x) (o_company o) && (o_timestamp x =? o_timestamp o)
      then o :: b'
      else x :: putObjectAt o b'
  end.



Section Services.

Variable env : Oracle.

Definition logCall (c : Call) (ok : bool) (w : World) : World :=
  mkWorld (table w) (bucket w) ((c, ok) :: calls w) (clockReads w) (uuidDraws w).

(** A call to an AWS client: rejected when the environment says so, in which
    case the stores are left as they were. *)
Definition awsCall {A} (c : Call) (effect : World -> A * World) : M A :=
  fun w =>
    if rejects env (length (calls w))
    then (Thrown (Rejected c), logCall c false w)
    else let '(a, w') := effect w in (Returned a, logCall c true w').

(** [new Date()] *)
Definition now : M Z :=
  fun w => (Returned (timeAt env (clockReads w)),
            mkWorld (table w) (bucket w) (calls w) (S (clockReads w)) (uuidDraws w)).

Definition uuidv4 : M string :=
  fun w => (Returned (uuidAt env (uuidDraws w)),
            mkWorld (table w) (bucket w) (calls w) (clockReads w) (S (uuidDraws w))).

Definition itemsOf (companyName : string) (t : list PostingRecord)
  : list PostingRecord :=
  List.filter (fun r => String.eqb (p_companyName r) companyName) t.

(** [getCompanyPostingHistory]: the query on [CompanyNameIndex]. *)
Definition getCompanyPostingHistory (companyName : string) : M (list PostingRecord) :=
  awsCall (Query companyName) (fun w => (itemsOf companyName (table w), w)).

Definition dynamoPut (item : PostingRecord) : M unit :=
  awsCall (Put item)
    (fun w => (tt, mkWorld (putItem item (table w)) (bucket w) (calls w)
                           (clockReads w) (uuidDraws w))).

Definition s3PutObject (o : S3Object) : M unit :=
  awsCall (PutObject o)
    (fun w => (tt, mkWorld (table w) (putObjectAt o (bucket w)) (calls w)
                           (clockReads w) (uuidDraws w))).

(** The scan with [FilterExpression 'size(similarJobs) > :threshold']. *)
Definition dynamoScan (threshold : nat) : M (list PostingRecord) :=
  awsCall Scan
    (fun w => (List.filter (fun r => (threshold <? length (p_similarJobs r))%nat) (table w), w)).

End Services.

(** ** detectCompanyPatterns *)

Definition pushPattern (finding : string) (p : Patterns) : Patterns :=
  mkPatterns (companyName p) (recentPostings p) (similarJobCount p)
    (longestOpenDays p) (recycledDescriptions p) (averagePostingFrequency p)
    (suspiciousPatterns p ++ [finding]) (confidenceScore p).

Definition deduct (n : Z) (p : Patterns) : Patterns :=
  mkPatterns (companyName p) (recentPostings p) (similarJobCount p)
    (longestOpenDays p) (recycledDescriptions p) (averagePostingFrequency p)
    (suspiciousPatterns p) (confidenceScore p - n).

Definition setRecycledDescriptions (b : bool) (p : Patterns) : Patterns :=
  mkPatterns (companyName p) (recentPostings p) (similarJobCount p)
    (longestOpenDays p) b (averagePostingFrequency p)
    (suspiciousPatterns p) (confidenceScore p).

(** [[...companyHistory].sort((a, b) => new Date(a.firstSeen) - new Date(b.firstSeen))]:
    a stable sort, oldest first. *)
Fixpoint insertByFirstSeen (x : PostingRecord) (l : list PostingRecord)
  : list PostingRecord :=
  match l with
  | [] => [x]
  | y :: r =>
      if p_firstSeen x <=? p_firstSeen y then x :: l
      else y :: insertByFirstSeen x r
  end.

Definition sortByFirstSeen (l : list PostingRecord) : list PostingRecord :=
  foldr insertByFirstSeen [] l.

(** The loop over [sortedByDate] from index 1. *)
Fixpoint totalDays (sortedByDate : list PostingRecord) : Z :=
  match sortedByDate with
  | a :: (b :: _) as r =>
      daysDifference (p_firstSeen a) (p_firstSeen b) + totalDays r
  | _ => 0
  end.

(** The value left in [patterns.averagePostingFrequency]. *)
Definition postingFrequency (companyHistory : list PostingRecord) : Z :=
  if (1 <? length companyHistory)%nat
  then JS.roundQ (inject_Z (totalDays (sortByFirstSeen companyHistory))
                  / inject_Z (Z.of_nat (length companyHistory - 1)))
  else 0.

Definition exceeds (similarity threshold : Q) : bool :=
  negb (Qle_bool similarity threshold).

(** The three rules, in the order of the source. *)
Definition applyRules (patterns : Patterns) : Patterns :=
  let patterns :=
    if SUSPICIOUS_REPOST_DAYS <? longestOpenDays patterns
    then deduct 2 (pushPattern
           ("Position open for " ++ JS.showZ (longestOpenDays patterns)
            ++ " days without being filled")%string patterns)
    else patterns in
  let patterns :=
    if (3 <? similarJobCount patterns)%nat
    then deduct 2 (pushPattern
           ("Multiple similar job postings ("
            ++ JS.showZ (Z.of_nat (similarJobCount patterns)) ++ ") detected")%string
           (setRecycledDescriptions true patterns))
    else patterns in
  if (averagePostingFrequency patterns <? 7) && (5 <? recentPostings patterns)%nat
  then deduct 1 (pushPattern "Unusually high frequency of new job postings" patterns)
  else patterns.

Section Detector.

Variable compareTwoStrings : string -> string -> Q.
Variable env : Oracle.

Local Open Scope detector_scope.

(** One turn of [for (const posting of companyHistory)]; the accumulator is
    [similarJobs] and [patterns.longestOpenDays]. *)
Definition scanPosting (jobDescription : string) (acc : list SimilarJob * Z)
    (posting : PostingRecord) : M (list SimilarJob * Z) :=
  let similarity :=
    compareTwoStrings (toLowerCase jobDescription)
                      (toLowerCase (p_jobDescription posting)) in
  let similarJobs :=
    if exceeds similarity SIMILARITY_THRESHOLD
    then acc.1 ++ [mkSimilarJob (p_id posting) (p_jobTitle posting)
                     (JS.roundQ (similarity * 100))
                     (p_firstSeen posting) (p_lastSeen posting)]
    else acc.1 in
  lastSeen <- match p_lastSeen posting with
              | Some t => ret t
              | None => now env
              end ;;
  let openDays := daysDifference (p_firstSeen posting) lastSeen in
  ret (similarJobs, if acc.2 <? openDays then openDays else acc.2).

Fixpoint scanHistory (jobDescription : string) (acc : list SimilarJob * Z)
    (companyHistory : list PostingRecord) : M (list SimilarJob * Z) :=
  match companyHistory with
  | [] => ret acc
  | posting :: rest =>
      acc' <- scanPosting jobDescription acc posting ;;
      scanHistory jobDescription acc' rest
  end.

(** [patterns] as it stands when the rules have been applied. *)
Definition analysePatterns (normalizedCompany : string)
    (companyHistory : list PostingRecord) (similarJobs : list SimilarJob)
    (longest : Z) : Patterns :=
  applyRules
    (mkPatterns normalizedCompany (length companyHistory) (length similarJobs)
       longest false (postingFrequency companyHistory) [] 10).

(** [detectCompanyPatterns].  The [catch] clause logs the error and throws it
    again, so a rejected call ends the run with that error. *)
Definition detectCompanyPatterns (companyData : CompanyData) : M Detection :=
  let normalizedCompany := normalizeCompanyName (company companyData) in
  companyHistory <- getCompanyPostingHistory env normalizedCompany ;;
  scanned <- scanHistory (jobDescription companyData) ([], 0) companyHistory ;;
  let similarJobs := scanned.1 in
  let patterns := analysePatterns normalizedCompany companyHistory similarJobs scanned.2 in
  jobId <- uuidv4 env ;;
  timestamp <- now env ;;
  _put <- dynamoPut env
    (mkPosting jobId normalizedCompany (jobTitle companyData)
       (location companyData) (jobDescription companyData) timestamp
       (Some timestamp) (map sj_id similarJobs)
       (match userId companyData with
        | Some u => if String.eqb u "" then "anonymous"%string else u
        | None => "anonymous"%string
        end)) ;;
  _obj <- s3PutObject env (mkS3Object normalizedCompany timestamp patterns similarJobs) ;;
  ret (mkDetection jobId patterns similarJobs timestamp).

End Detector.

(** ** getSuspiciousCompanies *)

Module Fleet.

(** The two kinds of collection the code builds.  A [Set] has a [size] and no
    [length]; an array has a [length]. *)
Inductive collection :=
| SetOf (elements : list string)
| ArrayOf (elements : list string).

Definition elementsOf (c : collection) : list string :=
  match c with SetOf l | ArrayOf l => l end.

(** [c.length] *)
Definition lengthOf (c : collection) : option JS.number :=
  match c with
  | ArrayOf l => Some (JS.ofNat (length l))
  | SetOf _ => None
  end.

(** [set.add(x)]: insertion order, no duplicate. *)
Definition setAdd (x : string) (c : collection) : collection :=
  match c with
  | SetOf l => SetOf (if bool_decide (x ∈ l) then l else l ++ [x])
  | ArrayOf l => ArrayOf l
  end.

(** A value of [companyMap]. *)
Record CompanyGroup := mkGroup {
  g_companyName : string;
  postingCount : nat;
  similarPostingsCount : nat;
  locations : collection;
  titles : collection
}.

(** An element of the array that is returned. *)
Record CompanyEntry := mkEntry {
  e_companyName : string;
  e_postingCount : nat;
  e_similarPostingsCount : nat;
  e_locations : list string;
  e_titles : list string;
  suspicionScore : JS.number
}.

(** [calculateSuspicionScore].  The divisor [postingCount] is at least 1 for
    every group the caller builds. *)
Definition calculateSuspicionScore (company : CompanyGroup) : JS.number :=
  let score := JS.ofZ 0 in
  let score :=
    JS.add score
      (JS.min (JS.ofZ 10)
              (JS.div (JS.ofNat (similarPostingsCount company)) (JS.ofZ 2))) in
  let titleRatio :=
    JS.div (JS.toNumber (lengthOf (titles company)))
           (JS.ofNat (postingCount company)) in
  let score :=
    if JS.lt titleRatio (JS.Num (1 # 2)) && (5 <? postingCount company)%nat
    then JS.add score (JS.mul (JS.sub (JS.ofZ 1) titleRatio) (JS.ofZ 5))
    else score in
  JS.round score.

(** Names every object literal inherits from [Object.prototype]:
    [companyMap[name]] is then a function or an object, so the entry is not
    initialised and [.locations.add] is a call on [undefined]. *)
Definition inheritedNames : list string :=
  ["constructor"; "__proto__"; "hasOwnProperty"; "isPrototypeOf";
   "propertyIsEnumerable"; "toLocaleString"; "toString"; "valueOf";
   "__defineGetter__"; "__defineSetter__"; "__lookupGetter__";
   "__lookupSetter__"]%string.

Fixpoint lookupGroup (key : string) (m : list (string * CompanyGroup))
  : option CompanyGroup :=
  match m with
  | [] => None
  | (k, g) :: r => if String.eqb k key then Some g else lookupGroup key r
  end.

Fixpoint alterGroup (f : CompanyGroup -> CompanyGroup) (key : string)
    (m : list (string * CompanyGroup)) : list (string * CompanyGroup) :=
  match m with
  | [] => []
  | (k, g) :: r =>
      if String.eqb k key then (k, f g) :: r else (k, g) :: alterGroup f key r
  end.

(** One turn of [for (const item of result.Items)].  [companyMap] keeps the
    own properties in the order of their creation. *)
Definition addItem (companyMap : list (string * CompanyGroup))
    (item : PostingRecord) : outcome (list (string * CompanyGroup)) :=
  let key := p_companyName item in
  if bool_decide (key ∈ inheritedNames) then Thrown TypeError
  else
    let companyMap :=
      match lookupGroup key companyMap with
      | Some _ => companyMap
      | None => companyMap ++ [(key, mkGroup key 0 0 (SetOf []) (SetOf []))]
      end in
    Returned
      (alterGroup
         (fun g =>
            mkGroup (g_companyName g) (S (postingCount g))
              (similarPostingsCount g + length (p_similarJobs item))
              (setAdd (p_location item) (locations g))
              (setAdd (p_jobTitle item) (titles g)))
         key companyMap).

Fixpoint groupItems (companyMap : list (string * CompanyGroup))
    (items : list PostingRecord) : outcome (list (string * CompanyGroup)) :=
  match items with
  | [] => Returned companyMap
  | item :: rest =>
      match addItem companyMap item with
      | Returned m => groupItems m rest
      | Thrown e => Thrown e
      end
  end.

(** A property name that is an array index: the canonical decimal form of an
    integer below 2^32 - 1. *)
Definition arrayIndex (key : string) : option N :=
  match NilZero.uint_of_string key with
  | Some u =>
      let n := N.of_uint u in
      if String.eqb (NilZero.string_of_uint (N.to_uint n)) key && (n <? 4294967295)%N
      then Some n else None
  | None => None
  end.

Fixpoint insertByIndex (x : N * CompanyGroup) (l : list (N * CompanyGroup))
  : list (N * CompanyGroup) :=
  match l with
  | [] => [x]
  | y :: r => if (x.1 <=? y.1)%N then x :: l else y :: insertByIndex x r
  end.

(** [Object.values]: array-index names first, in increasing order, then the
    other names in the order of their creation. *)
Definition objectValues (m : list (string * CompanyGroup)) : list CompanyGroup :=
  map snd
    (foldr insertByIndex []
       (omap (fun kg => match arrayIndex kg.1 with
                        | Some n => Some (n, kg.2)
                        | None => None
                        end) m))
  ++ map snd (List.filter (fun kg => negb (bool_decide (is_Some (arrayIndex kg.1)))) m).

Definition toEntry (company : CompanyGroup) : CompanyEntry :=
  mkEntry (g_companyName company) (postingCount company)
    (similarPostingsCount company)
    (elementsOf (locations company)) (elementsOf (titles company))
    (calculateSuspicionScore company).

(** [.sort((a, b) => b.suspicionScore - a.suspicionScore)]: stable; [x]
    stays in front of [y] unless the comparator is positive. *)
Fixpoint insertByScore (x : CompanyEntry) (l : list CompanyEntry)
  : list CompanyEntry :=
  match l with
  | [] => [x]
  | y :: r =>
      if JS.lt (JS.ofZ 0) (JS.sub (suspicionScore y) (suspicionScore x))
      then y :: insertByScore x r
      else x :: l
  end.

Definition sortByScore (l : list CompanyEntry) : list CompanyEntry :=
  foldr insertByScore [] l.

Section Service.

Variable env : Oracle.

Local Open Scope detector_scope.

Definition getSuspiciousCompanies : M (list CompanyEntry) :=
  items <- dynamoScan env 3 ;;
  fun w =>
    match groupItems [] items with
    | Returned companyMap =>
        (Returned (sortByScore (map toEntry (objectValues companyMap))), w)
    | Thrown e => (Thrown e, w)
    end.

End Service.

(** The score as the specification words it: the clamped half of
    [similarPostingsCount], plus the title bonus, rounded. *)
Definition specSuspicionScore (similarPostingsCount postingCount distinctTitles : nat)
  : Z :=
  let titleRatio := (inject_Z (Z.of_nat distinctTitles) / inject_Z (Z.of_nat postingCount))%Q in
  let half := (inject_Z (Z.of_nat similarPostingsCount) / 2)%Q in
  JS.roundQ
    ((if Qle_bool 10 half then 10 else half)
     + (if negb (Qle_bool (1 # 2) titleRatio) && (5 <? postingCount)%nat
        then (1 - titleRatio) * 5 else 0))%Q.

End Fleet.

(** ** Notions used to state the properties *)

(** The similarity the detector computes between two job descriptions. *)
Definition descriptionSimilarity (a b : string) : Q :=
  StringSimilarity.compareTwoStrings (toLowerCase a) (toLowerCase b).

(** Shapes of a text that a second normalisation would still change. *)
Module NormalForm.
Import Text.

(** Two adjacent SPACE units occur in [s]. *)
Fixpoint doubledSpace (s : text) : bool :=
  match s with
  | a :: (b :: _) as r =>
      Ascii.eqb a " " && Ascii.eqb b " " || doubledSpace r
  | _ => false
  end.

(** The suffix pattern matches somewhere in [s]: [s] ends in white space
    followed by one of the tokens. *)
Fixpoint suffixMatches (s : text) : bool :=
  match s with
  | [] => false
  | _ :: r => suffixMatchesAt s || suffixMatches r
  end.

(** A unit as the first three passes leave it: lower case, SPACE if it is
    white space, and not in the punctuation class. *)
Definition settled (c : ascii) : Prop :=
  lowerUnit c = c /\ (isWhiteSpace c = true -> c = " "%char)
  /\ isPunctuation c = false.

(** The text does not begin with white space. *)
Definition headOk (s : text) : Prop :=
  match s with
  | [] => True
  | c :: _ => isWhiteSpace c = false
  end.

End NormalForm.



(** The stored item with a given key. *)
Definition findById (i : string) (t : list PostingRecord) : option PostingRecord :=
  List.find (fun r => String.eqb (p_id r) i) t.

(** The test [similarity > SIMILARITY_THRESHOLD] of the scan, for one stored
    posting. *)
Definition similarTo (compareTwoStrings : string -> string -> Q)
    (jobDescription : string) (posting : PostingRecord) : bool :=
  exceeds (compareTwoStrings (toLowerCase jobDescription)
                             (toLowerCase (p_jobDescription posting)))
          SIMILARITY_THRESHOLD.

(** The array [similarJobs] once the scan is over. *)
Definition similarJobsOf (compareTwoStrings : string -> string -> Q)
    (jobDescription : string) (companyHistory : list PostingRecord)
  : list SimilarJob :=
  map (fun p => mkSimilarJob (p_id p) (p_jobTitle p)
                  (JS.roundQ (compareTwoStrings (toLowerCase jobDescription)
                                (toLowerCase (p_jobDescription p)) * 100))
                  (p_firstSeen p) (p_lastSeen p))
      (List.filter (similarTo compareTwoStrings jobDescription) companyHistory).

(** The item [detectCompanyPatterns] hands to [dynamoDb.put]. *)
Definition newItem (companyData : CompanyData) (jobId : string) (timestamp : Z)
    (similarIds : list string) : PostingRecord :=
  mkPosting jobId (normalizeCompanyName (company companyData))
    (jobTitle companyData) (location companyData) (jobDescription companyData)
    timestamp (Some timestamp) similarIds
    (match userId companyData with
     | Some u => if String.eqb u "" then "anonymous"%string else u
     | None => "anonymous"%string
     end).

Definition highFrequencyFinding : string :=
  "Unusually high frequency of new job postings".

(** ** Sample data *)

Module Sample.

Definition day : Z := 1000 * 60 * 60 * 24.

Definition quiet : Oracle :=
  mkOracle (fun _ => 200 * day) (fun _ => "job-new"%string) (fun _ => false).



Definition advert : string := "Build and run the data platform".

Definition posting (i : string) (first last : Z) : PostingRecord :=
  mkPosting i "acme" "Engineer" "Berlin" advert (first * day) (Some (last * day))
            [] "u1".

Definition request : CompanyData :=
  mkCompanyData "Acme, Inc." "Engineer" "Berlin" advert (Some "u2"%string).

Definition emptyWorld : World := mkWorld [] [] [] 0 0.

Definition oneWorld : World := mkWorld [posting "1" 0 10] [] [] 0 0.

Definition fourWorld : World :=
  mkWorld [posting "1" 0 10; posting "2" 20 30; posting "3" 40 50;
           posting "4" 60 70] [] [] 0 0.

(** Six postings a day apart, the first one open for 100 days. *)
Definition busyWorld : World :=
  mkWorld [posting "1" 0 100; posting "2" 1 2; posting "3" 2 3;
           posting "4" 3 4; posting "5" 4 5; posting "6" 5 6] [] [] 0 0.

(** A stored item that the scan of [getSuspiciousCompanies] retains: four
    similar postings. *)
Definition flagged (i : string) : PostingRecord :=
  mkPosting i "acme" "Engineer" "Berlin" advert 0 (Some 0)
            ["a"; "b"; "c"; "d"]%string "u1".

(** Six retained items of one company, all with the same title. *)
Definition fleetWorld : World :=
  mkWorld [flagged "1"; flagged "2"; flagged "3"; flagged "4"; flagged "5";
           flagged "6"] [] [] 0 0.

Definition detect (env : Oracle) (w : World) : outcome Detection * World :=
  detectCompanyPatterns StringSimilarity.compareTwoStrings env request w.

End Sample.

(** ** The job controller *)

(** The request handlers of [backend/src/controllers/jobController.js].  The
    analyser and feedback services are not the detector's concern and are
    taken as parameters; the two detector services are the ones embedded
    above.  A handler answers through [res.status(code).json(body)] and
    catches whatever its body throws. *)
Module Controller.

(** [req.user], set by the authentication middleware. *)
Record User := mkUser {
  sub : string;
  permissions : list string
}.

(** The JSON body of an answer: the failure object
    [{ success: false, message }] or the payload of a success. *)
Inductive Reply (B : Type) :=
| Failure (message : string)
| Payload (b : B).
Arguments Failure {B} message.
Arguments Payload {B} b.

Record Response (B : Type) := mkResponse {
  status : Z;
  reply : Reply B
}.
Arguments mkResponse {B} status reply.
Arguments status {B} r.
Arguments reply {B} r.

(** A body field is absent or a string; [!field] holds for an absent and for
    an empty one. *)
Definition falsy (field : option string) : bool :=
  match field with
  | Some s => String.eqb s ""
  | None => true
  end.

(** [try { ... } catch (error) { ... }] *)
Definition tryCatch {A} (body : M A) (handler : Exn -> M A) : M A :=
  fun w =>
    match body w with
    | (Returned a, w') => (Returned a, w')
    | (Thrown e, w') => handler e w'
    end.

(** Reading a property of [req.user]: a [TypeError] when the middleware has
    set no user. *)
Definition userOf (user : option User) : M User :=
  fun w =>
    match user with
    | Some u => (Returned u, w)
    | None => (Thrown TypeError, w)
    end.

(** [POST /api/jobs/analyze].  The form always sends a location. *)
Record AnalyzeRequest := mkAnalyzeRequest {
  a_user : option User;
  a_jobTitle : option string;
  a_company : option string;
  a_location : string;
  a_jobDescription : option string
}.

(** [{ ...analysisResult, patterns, similarJobs }] *)
Record Combined (Analysis : Type) := mkCombined {
  c_analysis : Analysis;
  c_patterns : Patterns;
  c_similarJobs : list SimilarJob
}.
Arguments mkCombined {Analysis} c_analysis c_patterns c_similarJobs.
Arguments c_analysis {Analysis} c.
Arguments c_patterns {Analysis} c.
Arguments c_similarJobs {Analysis} c.

(** [POST /api/jobs/feedback/:id].  [f_rating] is [None] for [undefined];
    otherwise it is the number the comparisons see, [NaN] for a value that
    has none. *)
Record FeedbackRequest := mkFeedbackRequest {
  f_user : option User;
  f_id : string;
  f_rating : option JS.number;
  f_comments : option string;
  f_outcome : option string
}.

(** The argument of [processFeedback]. *)
Record FeedbackData := mkFeedbackData {
  fd_analysisId : string;
  fd_userId : string;
  fd_rating : option JS.number;
  fd_comments : option string;
  fd_outcome : option string
}.

Section Handlers.

Variable compareTwoStrings : string -> string -> Q.
Variable env : Oracle.

(** [error.message] of a thrown error, empty when it has none. *)
Variable messageOf : Exn -> string.

Variables Analysis Stored Feedback : Type.

(** [jobAnalyzerService] and [feedbackProcessorService]. *)
Variable analyzeJobService : CompanyData -> M Analysis.
Variable getUserAnalysisHistory : string -> M (list Stored).
Variable getAnalysisByIdService : string -> M Stored.
Variable storedUserId : Stored -> option string.
Variable processFeedback : FeedbackData -> M Feedback.

Local Open Scope detector_scope.

(** [res.status(500).json({ success: false, message: error.message ||
    'Internal server error' })] *)
Definition internalError {B} (error : Exn) : M (Response B) :=
  ret (mkResponse 500
         (Failure (if String.eqb (messageOf error) ""
                   then "Internal server error"%string
                   else messageOf error))).

Definition analyzeJob (req : AnalyzeRequest) : M (Response (Combined Analysis)) :=
  tryCatch
    (match a_jobTitle req, a_company req, a_jobDescription req with
     | Some jobTitle, Some company, Some jobDescription =>
         if falsy (a_jobTitle req) || falsy (a_company req)
            || falsy (a_jobDescription req)
         then ret (mkResponse 400
                     (Failure "Job title, company, and description are required"))
         else
           user <- userOf (a_user req) ;;
           let userId := sub user in
           let data := mkCompanyData company jobTitle (a_location req)
                         jobDescription (Some userId) in
           analysisResult <- analyzeJobService data ;;
           patternResult <- detectCompanyPatterns compareTwoStrings env data ;;
           ret (mkResponse 200
                  (Payload (mkCombined analysisResult (d_patterns patternResult)
                                       (d_similarJobs patternResult))))
     | _, _, _ =>
         ret (mkResponse 400
                (Failure "Job title, company, and description are required"))
     end)
    internalError.

Definition getAnalysisHistory (user : option User)
  : M (Response (list Stored)) :=
  tryCatch
    (u <- userOf user ;;
     analyses <- getUserAnalysisHistory (sub u) ;;
     ret (mkResponse 200 (Payload analyses)))
    internalError.

Definition getAnalysisById (user : option User) (id : string)
  : M (Response Stored) :=
  tryCatch
    (u <- userOf user ;;
     analysis <- getAnalysisByIdService id ;;
     if bool_decide (storedUserId analysis = Some (sub u))
     then ret (mkResponse 200 (Payload analysis))
     else ret (mkResponse 403 (Failure "Access denied")))
    (fun error =>
       if String.eqb (messageOf error) "Analysis not found"
       then ret (mkResponse 404 (Failure "Analysis not found"))
       else internalError error).

(** [rating === undefined || rating < 1 || rating > 5] *)
Definition badRating (rating : option JS.number) : bool :=
  match rating with
  | None => true
  | Some r => JS.lt r (JS.ofZ 1) || JS.lt (JS.ofZ 5) r
  end.

Definition submitFeedback (req : FeedbackRequest) : M (Response Feedback) :=
  tryCatch
    (u <- userOf (f_user req) ;;
     if badRating (f_rating req)
     then ret (mkResponse 400 (Failure "Rating must be between 1 and 5"))
     else
       result <- processFeedback
                   (mkFeedbackData (f_id req) (sub u) (f_rating req)
                                   (f_comments req) (f_outcome req)) ;;
       ret (mkResponse 200 (Payload result)))
    internalError.

Definition getSuspiciousCompanies (user : option User)
  : M (Response (list Fleet.CompanyEntry)) :=
  tryCatch
    (u <- userOf user ;;
     if negb (bool_decide ("admin"%string ∈ permissions u))
     then ret (mkResponse 403 (Failure "Access denied"))
     else
       companies <- Fleet.getSuspiciousCompanies env ;;
       ret (mkResponse 200 (Payload companies)))
    internalError.

End Handlers.

End Controller.

(** ** The front end: the score indicator and the store of analyses *)

(** [frontend/src/components/common/ScoreIndicator.tsx]: the classes and the
    label the component renders. *)
Module ScoreIndicator.

Inductive Size := sm | md | lg.

(** [Math.max] and [Math.min] answer [NaN] as soon as an argument is. *)
Definition max (a b : JS.number) : JS.number :=
  match a, b with
  | JS.Num x, JS.Num y => JS.Num (if Qle_bool x y then y else x)
  | _, _ => JS.NaN
  end.

(** [a <= b], false when a side is [NaN]. *)
Definition le (a b : JS.number) : bool :=
  match a, b with
  | JS.Num x, JS.Num y => Qle_bool x y
  | _, _ => false
  end.

Record View := mkView {
  validScore : JS.number;
  color : string;
  textColor : string;
  label : string;
  sizeClasses : string;
  fontSizeClass : string;
  textSizeClass : string
}.

(** The component; [size] is [None] when the property is not given and then
    defaults to ['md']. *)
Definition render (score : JS.number) (size : option Size) : View :=
  let size := match size with Some s => s | None => md end in
  let validScore := max (JS.ofZ 1) (JS.min (JS.ofZ 10) (JS.round score)) in
  let '(color, textColor, label) :=
    if le validScore (JS.ofZ 3)
    then ("bg-red-500", "text-red-700", "Low Authenticity")%string
    else if le validScore (JS.ofZ 6)
    then ("bg-yellow-400", "text-yellow-700", "Medium Authenticity")%string
    else ("bg-green-500", "text-green-700", "High Authenticity")%string in
  let '(sizeClasses, fontSizeClass, textSizeClass) :=
    match size with
    | sm => ("w-8 h-8", "text-xs", "text-xs")%string
    | lg => ("w-16 h-16", "text-2xl", "text-sm")%string
    | md => ("w-12 h-12", "text-xl", "text-xs")%string
    end in
  mkView validScore color textColor label sizeClasses fontSizeClass textSizeClass.

End ScoreIndicator.

(** The slice [analysis] of the store (analysisSlice.ts). *)
Module AnalysisSlice.

(** [JobAnalysis] of jobAnalysisService.ts. *)
Record JobAnalysis := mkJobAnalysis {
  id : string;
  authenticityScore : JS.number;
  redFlags : list string;
  greenFlags : list string;
  reasoning : string;
  timestamp : string
}.

(** [Partial<JobAnalysis>]: the members that are present. *)
Record Updates := mkUpdates {
  u_id : option string;
  u_authenticityScore : option JS.number;
  u_redFlags : option (list string);
  u_greenFlags : option (list string);
  u_reasoning : option string;
  u_timestamp : option string
}.

Record AnalysisState := mkState {
  analyses : list JobAnalysis;
  loading : bool;
  error : option string
}.

Definition initialState : AnalysisState := mkState [] false None.

(** [{ ...analysis, ...updates }] *)
Definition merge (analysis : JobAnalysis) (updates : Updates) : JobAnalysis :=
  mkJobAnalysis
    (default (id analysis) (u_id updates))
    (default (authenticityScore analysis) (u_authenticityScore updates))
    (default (redFlags analysis) (u_redFlags updates))
    (default (greenFlags analysis) (u_greenFlags updates))
    (default (reasoning analysis) (u_reasoning updates))
    (default (timestamp analysis) (u_timestamp updates)).

(** [analyses.findIndex(analysis => analysis.id === id)], [None] for -1. *)
Fixpoint findIndex (i : string) (l : list JobAnalysis) : option nat :=
  match l with
  | [] => None
  | a :: r =>
      if String.eqb (id a) i then Some 0%nat
      else option_map S (findIndex i r)
  end.

(** [state.analyses.unshift(action.payload)] *)
Definition addAnalysis (state : AnalysisState) (payload : JobAnalysis)
  : AnalysisState :=
  mkState (payload :: analyses state) (loading state) (error state).

Definition clearAnalyses (state : AnalysisState) : AnalysisState :=
  mkState [] (loading state) (error state).

Definition updateAnalysis (state : AnalysisState) (i : string) (updates : Updates)
  : AnalysisState :=
  match findIndex i (analyses state) with
  | Some index =>
      match analyses state !! index with
      | Some old =>
          mkState (<[index := merge old updates]> (analyses state))
                  (loading state) (error state)
      | None => state
      end
  | None => state
  end.

Definition removeAnalysis (state : AnalysisState) (i : string) : AnalysisState :=
  mkState (List.filter (fun a => negb (String.eqb (id a) i)) (analyses state))
          (loading state) (error state).

(** The three cases of [fetchAnalysisHistory]. *)
Definition fetchPending (state : AnalysisState) : AnalysisState :=
  mkState (analyses state) true None.

Definition fetchFulfilled (state : AnalysisState) (payload : list JobAnalysis)
  : AnalysisState :=
  mkState payload false (error state).

Definition fetchRejected (state : AnalysisState) (payload : string)
  : AnalysisState :=
  mkState (analyses state) false (Some payload).

End AnalysisSlice.

(** ** Notions for the further properties *)

(** Every stored item has its [lastSeen] equal to its [firstSeen], as the
    items written by [detectCompanyPatterns] have. *)
Definition neverReseen (t : list PostingRecord) : Prop :=
  Forall (fun r => p_lastSeen r = Some (p_firstSeen r)) t.

(** The object stored in the bucket under the key made of a company name and
    a timestamp. *)
Definition findObject (companyName : string) (timestamp : Z) (b : list S3Object)
  : option S3Object :=
  List.find (fun o => String.eqb (o_company o) companyName
                      && (o_timestamp o =? timestamp)) b.

(** The gaps summed by the frequency loop, on the dates alone. *)
Fixpoint totalGaps (dates : list Z) : Z :=
  match dates with
  | a :: (b :: _) as r => daysDifference a b + totalGaps r
  | _ => 0
  end.

(** Notions for the roll-up. *)
Module FleetSpec.
Import Fleet.

(** The items the scan of [getSuspiciousCompanies] retains. *)
Definition retained (t : list PostingRecord) : list PostingRecord :=
  List.filter (fun r => (3 <? length (p_similarJobs r))%nat) t.

(** The values of a list, each once, in the order of their first
    occurrence: what a [Set] filled from the list holds. *)
Definition distinct (l : list string) : list string :=
  foldl (fun acc x => if bool_decide (x ∈ acc) then acc else acc ++ [x]) [] l.

Definition sumSimilar (items : list PostingRecord) : nat :=
  list_sum (map (fun r => length (p_similarJobs r)) items).

(** The group of company [k] among [items]. *)
Definition groupOf (items : list PostingRecord) (k : string) : CompanyGroup :=
  let its := itemsOf k items in
  mkGroup k (length its) (sumSimilar its)
    (SetOf (distinct (map p_location its)))
    (SetOf (distinct (map p_jobTitle its))).

(** The whole [companyMap] after [items]. *)
Definition groupsOf (items : list PostingRecord) : list (string * CompanyGroup) :=
  map (fun k => (k, groupOf items k)) (distinct (map p_companyName items)).

(** Half of [n], rounded to the nearest integer with halves upwards, and at
    most 10. *)
Definition clampedHalf (n : nat) : Z := Z.min 10 ((Z.of_nat n + 1) / 2).

(** The score of an entry is the clamped half of its count. *)
Definition scored (e : CompanyEntry) : Prop :=
  suspicionScore e = JS.Num (inject_Z (clampedHalf (e_similarPostingsCount e))).

End FleetSpec.

(** More sample data. *)
Module Cases.

(** Two companies with retained items, and one item below the scan's
    threshold. *)
Definition twoCompanies : World :=
  mkWorld
    [Sample.flagged "1";
     mkPosting "2" "globex" "Analyst" "Paris" "Read the numbers" 0 (Some 0)
               (replicate 30 "s"%string) "u2";
     Sample.flagged "3";
     mkPosting "4" "initech" "Clerk" "Austin" "File the reports" 0 (Some 0)
               ["a"; "b"; "c"]%string "u3"]
    [] [] 0 0.

End Cases.

(** ** Properties of the similarity engine *)

Module SimilarityFacts.
Import Text StringSimilarity.

Implicit Types (m : gmap text nat) (X Y : gmultiset text) (l : list text).

(** A count map [m] stands for the multiset [X]. *)
Definition counts m X : Prop := forall b, countOf m b = multiplicity b X.

Lemma counts_empty : counts ∅ ∅.
Proof. intros b. unfold countOf. rewrite lookup_empty. multiset_solver. Qed.

Lemma counts_add m X b : counts m X -> counts (addBigram m b) ({[+ b +]} ⊎ X).
Proof.
  intros Hm c. unfold addBigram, countOf.
  rewrite multiplicity_disj_union.
  destruct (decide (b = c)) as [->|Hne].
  - rewrite lookup_insert_eq, multiplicity_singleton_eq. cbn.
    f_equal. apply Hm.
  - rewrite lookup_insert_ne, multiplicity_singleton_ne by congruence.
    apply Hm.
Qed.

Lemma counts_take m X b :
  counts m X -> counts (<[b := (countOf m b - 1)%nat]> m) (X ∖ {[+ b +]}).
Proof.
  intros Hm c. unfold countOf at 1.
  rewrite multiplicity_difference.
  destruct (decide (b = c)) as [->|Hne].
  - rewrite lookup_insert_eq, multiplicity_singleton_eq. cbn.
    rewrite (Hm c). reflexivity.
  - rewrite lookup_insert_ne, multiplicity_singleton_ne by congruence.
    rewrite Nat.sub_0_r. apply Hm.
Qed.

Lemma counts_foldl l : forall m X,
  counts m X -> counts (foldl addBigram m l) (list_to_set_disj l ⊎ X).
Proof.
  induction l as [|b l IH]; intros m X Hm; cbn [foldl].
  - rewrite list_to_set_disj_nil, (left_id ∅ (⊎)). exact Hm.
  - rewrite list_to_set_disj_cons.
    replace ({[+ b +]} ⊎ list_to_set_disj l ⊎ X)
      with (list_to_set_disj l ⊎ ({[+ b +]} ⊎ X)) by multiset_solver.
    apply IH, counts_add, Hm.
Qed.

Lemma counts_firstBigrams first :
  counts (firstBigrams first) (list_to_set_disj (bigrams first)).
Proof.
  unfold firstBigrams.
  rewrite <- (right_id ∅ (⊎) (list_to_set_disj (bigrams first))).
  apply counts_foldl, counts_empty.
Qed.

(** The second loop counts the bigrams common to both multisets. *)
Lemma matched_size l : forall m k X,
  counts m X ->
  (foldl matchBigram (m, k) l).2 = (k + size (X ∩ list_to_set_disj l))%nat.
Proof.
  induction l as [|b l IH]; intros m k X Hm; cbn [foldl].
  - rewrite list_to_set_disj_nil, (right_absorb ∅ (∩)), gmultiset_size_empty.
    cbn. lia.
  - rewrite list_to_set_disj_cons. unfold matchBigram at 2. cbn [fst snd].
    destruct (Nat.ltb_spec 0 (countOf m b)) as [Hpos|Hzero].
    + rewrite (IH _ _ _ (counts_take m X b Hm)).
      replace (X ∩ ({[+ b +]} ⊎ list_to_set_disj l))
        with ({[+ b +]} ⊎ (X ∖ {[+ b +]}) ∩ list_to_set_disj l).
      * rewrite gmultiset_size_disj_union, gmultiset_size_singleton. lia.
      * rewrite (Hm b) in Hpos. multiset_solver.
    + rewrite (IH _ _ _ Hm).
      replace (X ∩ ({[+ b +]} ⊎ list_to_set_disj l))
        with (X ∩ list_to_set_disj l); [reflexivity|].
      rewrite (Hm b) in Hzero. multiset_solver.
Qed.

Lemma intersectionSize_multiset first second :
  intersectionSize first second
  = size (list_to_set_disj (bigrams first) ∩ list_to_set_disj (bigrams second)
          : gmultiset text).
Proof.
  unfold intersectionSize.
  rewrite (matched_size _ _ _ _ (counts_firstBigrams first)). reflexivity.
Qed.

Lemma intersectionSize_comm first second :
  intersectionSize first second = intersectionSize second first.
Proof.
  rewrite !intersectionSize_multiset. f_equal. apply (comm (∩)).
Qed.

Lemma size_list_to_set_disj l : size (list_to_set_disj l : gmultiset text) = length l.
Proof.
  induction l as [|b l IH].
  - rewrite list_to_set_disj_nil. apply gmultiset_size_empty.
  - rewrite list_to_set_disj_cons, gmultiset_size_disj_union,
      gmultiset_size_singleton, IH. reflexivity.
Qed.

Lemma length_bigrams (s : text) : length (bigrams s) = (length s - 1)%nat.
Proof.
  induction s as [|a [|b r] IH]; [reflexivity..|].
  cbn [bigrams length] in *. lia.
Qed.

Lemma intersectionSize_le_first first second :
  (intersectionSize first second <= length first - 1)%nat.
Proof.
  rewrite intersectionSize_multiset, <- length_bigrams, <- size_list_to_set_disj.
  apply gmultiset_subseteq_size. multiset_solver.
Qed.

End SimilarityFacts.

(** ** Properties of detectCompanyPatterns *)

Section DetectorFacts.

Variable compareTwoStrings : string -> string -> Q.
Variable env : Oracle.

Abbreviation run := (detectCompanyPatterns compareTwoStrings env).

(** The scan never fails, reads only the clock, and appends to [similarJobs]
    one entry per stored posting above the threshold. *)
Lemma scanHistory_returns jd h : forall acc w,
  exists longest n,
    (h = [] -> longest = acc.2) /\
    scanHistory compareTwoStrings env jd acc h w
    = (Returned (acc.1 ++ similarJobsOf compareTwoStrings jd h, longest),
       mkWorld (table w) (bucket w) (calls w) n (uuidDraws w)).
Proof.
  unfold similarJobsOf.
  induction h as [|p h IH]; intros acc w.
  - exists acc.2, (clockReads w). cbn. rewrite app_nil_r.
    destruct acc, w; split; reflexivity.
  - cbn [scanHistory]. unfold bind at 1. unfold scanPosting, bind, similarTo.
    cbn [List.filter].
    destruct (p_lastSeen p) as [t|] eqn:Hl; cbn [ret now];
      match goal with
      | |- context [scanHistory _ _ _ ?a _ ?w1] =>
          destruct (IH a w1) as (longest & n & _ & ->)
      end;
      exists longest, n; cbn [fst snd table bucket calls uuidDraws];
      unfold similarTo;
      destruct (exceeds _ SIMILARITY_THRESHOLD); cbn [map fst];
      rewrite ?Hl, <- ?app_assoc; (split; [discriminate | reflexivity]).
Qed.

(** Every run of [detectCompanyPatterns], by the first call that is
    rejected. *)
Lemma run_cases data w :
  let nc := normalizeCompanyName (company data) in
  let h := itemsOf nc (table w) in
  let k := length (calls w) in
  let similarJobs := similarJobsOf compareTwoStrings (jobDescription data) h in
  let jobId := uuidAt env (uuidDraws w) in
  exists longest n,
    (h = [] -> longest = 0) /\
    let patterns := analysePatterns nc h similarJobs longest in
    let timestamp := timeAt env n in
    let item := newItem data jobId timestamp (map sj_id similarJobs) in
    let obj := mkS3Object nc timestamp patterns similarJobs in
    let queried := (Query nc, true) :: calls w in
    run data w =
      if rejects env k
      then (Thrown (Rejected (Query nc)),
            mkWorld (table w) (bucket w) ((Query nc, false) :: calls w)
                    (clockReads w) (uuidDraws w))
      else if rejects env (S k)
      then (Thrown (Rejected (Put item)),
            mkWorld (table w) (bucket w) ((Put item, false) :: queried)
                    (S n) (S (uuidDraws w)))
      else if rejects env (S (S k))
      then (Thrown (Rejected (PutObject obj)),
            mkWorld (putItem item (table w)) (bucket w)
                    ((PutObject obj, false) :: (Put item, true) :: queried)
                    (S n) (S (uuidDraws w)))
      else (Returned (mkDetection jobId patterns similarJobs timestamp),
            mkWorld (putItem item (table w)) (putObjectAt obj (bucket w))
                    ((PutObject obj, true) :: (Put item, true) :: queried)
                    (S n) (S (uuidDraws w))).
Proof.
  intros nc h k similarJobs jobId.
  destruct (scanHistory_returns (jobDescription data) h ([], 0)
              (logCall (Query nc) true w)) as (longest & n & H0 & Hscan).
  exists longest, n. split; [exact H0|].
  cbn zeta. unfold detectCompanyPatterns.
  unfold bind at 1. unfold getCompanyPostingHistory, awsCall at 1.
  fold nc k. destruct (rejects env k) eqn:Hq; [reflexivity|].
  fold h. unfold bind at 1. rewrite Hscan.
  lazy beta iota zeta delta
    [bind uuidv4 now dynamoPut s3PutObject awsCall logCall ret].
  cbn [fst snd table bucket calls clockReads uuidDraws length app].
  fold k similarJobs jobId.
  destruct (rejects env (S k)); [reflexivity|].
  cbn [fst snd table bucket calls clockReads uuidDraws length app].
  fold k.
  destruct (rejects env (S (S k))); reflexivity.
Qed.

(** What the rules do to [patterns]. *)
Lemma applyRules_spec p :
  let r1 := SUSPICIOUS_REPOST_DAYS <? longestOpenDays p in
  let r2 := (3 <? similarJobCount p)%nat in
  let r3 := (averagePostingFrequency p <? 7) && (5 <? recentPostings p)%nat in
  let q := applyRules p in
  companyName q = companyName p /\
  recentPostings q = recentPostings p /\
  similarJobCount q = similarJobCount p /\
  longestOpenDays q = longestOpenDays p /\
  averagePostingFrequency q = averagePostingFrequency p /\
  recycledDescriptions q = recycledDescriptions p || r2 /\
  confidenceScore q
  = confidenceScore p - (if r1 then 2 else 0) - (if r2 then 2 else 0)
    - (if r3 then 1 else 0) /\
  suspiciousPatterns q
  = suspiciousPatterns p
    ++ (if r1 then [("Position open for " ++ JS.showZ (longestOpenDays p)
                     ++ " days without being filled")%string] else [])
    ++ (if r2 then [("Multiple similar job postings ("
                     ++ JS.showZ (Z.of_nat (similarJobCount p))
                     ++ ") detected")%string] else [])
    ++ (if r3 then [highFrequencyFinding] else []).
Proof.
  unfold applyRules.
  destruct (SUSPICIOUS_REPOST_DAYS <? longestOpenDays p) eqn:H1;
    cbn [pushPattern deduct setRecycledDescriptions companyName recentPostings
         similarJobCount longestOpenDays recycledDescriptions
         averagePostingFrequency suspiciousPatterns confidenceScore];
    destruct (3 <? similarJobCount p)%nat eqn:H2;
    cbn [pushPattern deduct setRecycledDescriptions companyName recentPostings
         similarJobCount longestOpenDays recycledDescriptions
         averagePostingFrequency suspiciousPatterns confidenceScore];
    destruct ((averagePostingFrequency p <? 7) && (5 <? recentPostings p)%nat) eqn:H3;
    cbn [pushPattern deduct setRecycledDescriptions companyName recentPostings
         similarJobCount longestOpenDays recycledDescriptions
         averagePostingFrequency suspiciousPatterns confidenceScore];
    rewrite ?H1, ?H2, ?H3, ?orb_true_r, ?orb_false_r, <- ?app_assoc, ?app_nil_r;
    repeat split; try reflexivity; try lia.
Qed.

(** The score of any pattern record that starts from 10. *)
Lemma analysePatterns_score nc h sj longest :
  5 <= confidenceScore (analysePatterns nc h sj longest) <= 10.
Proof.
  unfold analysePatterns.
  match goal with |- context [applyRules ?p] =>
    destruct (applyRules_spec p) as (_ & _ & _ & _ & _ & _ & -> & _) end.
  cbn [confidenceScore].
  repeat match goal with |- context [if ?b then _ else _] => destruct b end; lia.
Qed.

(** A run that returns hands back the patterns of the stored history. *)
Lemma run_returned data w d w' :
  run data w = (Returned d, w') ->
  let nc := normalizeCompanyName (company data) in
  let h := itemsOf nc (table w) in
  let similarJobs := similarJobsOf compareTwoStrings (jobDescription data) h in
  exists longest n,
    (h = [] -> longest = 0) /\
    d = mkDetection (uuidAt env (uuidDraws w))
          (analysePatterns nc h similarJobs longest) similarJobs (timeAt env n).
Proof.
  intros Hrun nc h similarJobs.
  destruct (run_cases data w) as (longest & n & H0 & Hc).
  cbn zeta in Hc. rewrite Hrun in Hc.
  exists longest, n. split; [exact H0|].
  repeat match type of Hc with
         | context [if ?b then _ else _] => destruct b
         end; try discriminate.
  injection Hc as -> _. reflexivity.
Qed.

(** When no call is rejected the run returns. *)
Lemma run_total data w :
  (forall k, rejects env k = false) ->
  exists d w', run data w = (Returned d, w').
Proof.
  intros Hok. destruct (run_cases data w) as (longest & n & _ & Hc).
  cbn zeta in Hc. rewrite !Hok in Hc. eauto.
Qed.

End DetectorFacts.





Section DetectorClaims.

Variable compareTwoStrings : string -> string -> Q.
Variable env : Oracle.

(** C7.  For a company with no stored posting, the analysis returns
    [confidenceScore = 10], [similarJobCount = 0] and no finding. *)
Theorem zero_history_analysis data w :
  (forall k, rejects env k = false) ->
  itemsOf (normalizeCompanyName (company data)) (table w) = [] ->
  exists d w',
    detectCompanyPatterns compareTwoStrings env data w = (Returned d, w') /\
    confidenceScore (d_patterns d) = 10 /\
    similarJobCount (d_patterns d) = 0%nat /\
    suspiciousPatterns (d_patterns d) = [].
Proof.
  intros Hok Hempty.
  destruct (run_total compareTwoStrings env data w Hok) as (d & w' & Hrun).
  exists d, w'. split; [exact Hrun|].
  destruct (run_returned _ _ _ _ _ _ Hrun) as (longest & n & H0 & ->).
  rewrite Hempty in *. rewrite (H0 eq_refl).
  cbn. repeat split; reflexivity.
Qed.

(** C8.  With exactly four stored postings of the company above the 0.85
    threshold, the analysis reports [recycledDescriptions = true] and
    [similarJobCount = 4], lists the finding about similar postings, and the
    score carries the deduction of 2 for it (next to what the two other rules
    deduct). *)
Theorem four_similar_postings data w :
  (forall k, rejects env k = false) ->
  length (List.filter (similarTo compareTwoStrings (jobDescription data))
            (itemsOf (normalizeCompanyName (company data)) (table w))) = 4%nat ->
  exists d w',
    detectCompanyPatterns compareTwoStrings env data w = (Returned d, w') /\
    let p := d_patterns d in
    recycledDescriptions p = true /\
    similarJobCount p = 4%nat /\
    In "Multiple similar job postings (4) detected"%string (suspiciousPatterns p) /\
    confidenceScore p
    = 10 - (if SUSPICIOUS_REPOST_DAYS <? longestOpenDays p then 2 else 0)
         - 2
         - (if (averagePostingFrequency p <? 7) && (5 <? recentPostings p)%nat
            then 1 else 0).
Proof.
  intros Hok Hfour.
  destruct (run_total compareTwoStrings env data w Hok) as (d & w' & Hrun).
  exists d, w'. split; [exact Hrun|].
  destruct (run_returned _ _ _ _ _ _ Hrun) as (longest & n & _ & ->).
  cbn [d_patterns]. unfold analysePatterns.
  match goal with |- context [applyRules ?p] =>
    destruct (applyRules_spec p) as (_ & Hrp & Hsc & Hlo & Hav & Hre & Hcs & Hsp)
  end.
  cbn zeta. rewrite Hre, Hsc, Hlo, Hav, Hrp, Hcs, Hsp.
  cbn [similarJobCount recycledDescriptions longestOpenDays confidenceScore
       averagePostingFrequency recentPostings suspiciousPatterns].
  unfold similarJobsOf. rewrite length_map, Hfour.
  change (3 <? 4)%nat with true. cbn [orb].
  repeat split; try reflexivity.
  rewrite !in_app_iff. right. right. left. left. reflexivity.
Qed.

(** C3, as the code has it.  The three rules can take off 2, 2 and 1 and
    nothing else lowers the score, so every analysis that returns has a
    [confidenceScore] between 5 and 10: the absence of a clamp never takes it
    below the floor of 1. *)
Theorem confidence_score_range data w d w' :
  detectCompanyPatterns compareTwoStrings env data w = (Returned d, w') ->
  5 <= confidenceScore (d_patterns d) <= 10.
Proof.
  intros Hrun.
  destruct (run_returned _ _ _ _ _ _ Hrun) as (longest & n & _ & ->).
  apply analysePatterns_score.
Qed.

(** C10.  [recentPostings] is the number of all items stored for the company,
    whatever their dates, and the high-frequency finding is reported exactly
    when the average gap is below 7 days and that lifetime count exceeds 5. *)
Theorem recent_postings_is_lifetime_count data w d w' :
  detectCompanyPatterns compareTwoStrings env data w = (Returned d, w') ->
  let stored :=
    List.filter
      (fun r => String.eqb (p_companyName r) (normalizeCompanyName (company data)))
      (table w) in
  recentPostings (d_patterns d) = length stored /\
  (In highFrequencyFinding (suspiciousPatterns (d_patterns d)) <->
   averagePostingFrequency (d_patterns d) < 7 /\ (5 < length stored)%nat).
Proof.
  intros Hrun stored.
  destruct (run_returned _ _ _ _ _ _ Hrun) as (longest & n & _ & ->).
  cbn [d_patterns]. unfold analysePatterns.
  match goal with |- context [applyRules ?p] =>
    destruct (applyRules_spec p) as (_ & Hrp & _ & _ & Hav & _ & _ & Hsp)
  end.
  rewrite Hrp, Hav, Hsp.
  cbn [recentPostings averagePostingFrequency suspiciousPatterns app].
  fold stored. unfold itemsOf. fold stored.
  split; [reflexivity|].
  rewrite !in_app_iff.
  destruct (Z.ltb_spec (postingFrequency stored) 7) as [Hf|Hf];
    destruct (Nat.ltb_spec 5 (length stored)) as [Hc|Hc]; cbn [andb].
  1: { split; [intros _; split; assumption|]. intros _. right. right. left. reflexivity. }
  all: split; [|intros [? ?]; lia];
    intros [H|[H|H]];
    repeat match type of H with
           | In _ (if ?b then _ else _) => destruct b
           end;
    cbn [In] in H; unfold highFrequencyFinding in H;
    repeat match type of H with _ \/ _ => destruct H as [H|H] end;
    try contradiction; discriminate H.
Qed.



End DetectorClaims.

(** C7 at a concrete input: the first posting of a company. *)
Lemma zero_history_analysis_witness :
  exists d w',
    Sample.detect Sample.quiet Sample.emptyWorld = (Returned d, w') /\
    confidenceScore (d_patterns d) = 10 /\
    similarJobCount (d_patterns d) = 0%nat /\
    suspiciousPatterns (d_patterns d) = [].
Proof.
  apply (zero_history_analysis StringSimilarity.compareTwoStrings Sample.quiet
           Sample.request Sample.emptyWorld).
  - intros k. reflexivity.
  - reflexivity.
Defined.

(** C8 at a concrete input: four stored copies of the same advert. *)
Lemma four_similar_postings_witness :
  exists d w',
    Sample.detect Sample.quiet Sample.fourWorld = (Returned d, w') /\
    recycledDescriptions (d_patterns d) = true /\
    similarJobCount (d_patterns d) = 4%nat.
Proof.
  destruct (four_similar_postings StringSimilarity.compareTwoStrings Sample.quiet
              Sample.request Sample.fourWorld) as (d & w' & Hrun & Hr & Hc & _).
  - intros k. reflexivity.
  - vm_compute. reflexivity.
  - exists d, w'. repeat split; assumption.
Defined.

(** C3 at a concrete input where the three rules fire together. *)
Lemma confidence_score_range_witness :
  exists d w',
    Sample.detect Sample.quiet Sample.busyWorld = (Returned d, w') /\
    5 <= confidenceScore (d_patterns d) <= 10.
Proof.
  destruct (Sample.detect Sample.quiet Sample.busyWorld) as [[d|e] w'] eqn:E.
  - exists d, w'. split; [reflexivity|].
    exact (confidence_score_range _ _ _ _ _ _ E).
  - vm_compute in E. discriminate E.
Defined.

(** The lowest score is reached: all three rules fire on [Sample.busyWorld]. *)
Example busy_company_scores_five :
  exists d w',
    Sample.detect Sample.quiet Sample.busyWorld = (Returned d, w') /\
    confidenceScore (d_patterns d) = 5 /\
    length (suspiciousPatterns (d_patterns d)) = 3%nat.
Proof. vm_compute. eexists _, _. repeat split. Qed.

(** C3 as stated fails: no analysis returns a score below 1. *)
Lemma confidence_score_never_below_floor :
  ~ exists compareTwoStrings env data w d w',
      detectCompanyPatterns compareTwoStrings env data w = (Returned d, w') /\
      confidenceScore (d_patterns d) < 1.
Proof.
  intros (sim & env & data & w & d & w' & Hrun & Hlow).
  destruct (run_returned _ _ _ _ _ _ Hrun) as (longest & n & _ & ->).
  pose proof (analysePatterns_score
                (normalizeCompanyName (company data))
                (itemsOf (normalizeCompanyName (company data)) (table w))
                (similarJobsOf sim (jobDescription data)
                   (itemsOf (normalizeCompanyName (company data)) (table w)))
                longest) as Hb.
  cbn [d_patterns] in Hlow. lia.
Qed.

(** C10 at a concrete input: six postings spread over five days. *)
Lemma recent_postings_is_lifetime_count_witness :
  exists d w',
    Sample.detect Sample.quiet Sample.busyWorld = (Returned d, w') /\
    recentPostings (d_patterns d) = 6%nat /\
    In highFrequencyFinding (suspiciousPatterns (d_patterns d)).
Proof.
  destruct (Sample.detect Sample.quiet Sample.busyWorld) as [[d|e] w'] eqn:E.
  - exists d, w'. split; [reflexivity|].
    destruct (recent_postings_is_lifetime_count _ _ _ _ _ _ E) as [Hn Hf].
    split; [exact Hn|].
    apply Hf. rewrite <- Hn. clear Hn Hf.
    vm_compute in E. injection E as <- _. vm_compute. split; [reflexivity|lia].
  - vm_compute in E. discriminate E.
Defined.





(** ** The contract of the similarity engine *)

Lemma compareTwoStrings_comm a b :
  StringSimilarity.compareTwoStrings a b = StringSimilarity.compareTwoStrings b a.
Proof.
  unfold StringSimilarity.compareTwoStrings. cbn zeta.
  set (f := StringSimilarity.removeWhitespace (list_ascii_of_string a)).
  set (s := StringSimilarity.removeWhitespace (list_ascii_of_string b)).
  destruct (decide (f = s)) as [He|Hne].
  - rewrite !bool_decide_eq_true_2 by congruence. reflexivity.
  - rewrite !bool_decide_eq_false_2 by congruence.
    rewrite (orb_comm (length f <? 2)%nat).
    rewrite (SimilarityFacts.intersectionSize_comm f s).
    rewrite (Nat.add_comm (length f)). reflexivity.
Qed.

Lemma compareTwoStrings_refl a : StringSimilarity.compareTwoStrings a a = 1%Q.
Proof.
  unfold StringSimilarity.compareTwoStrings. cbn zeta.
  rewrite bool_decide_eq_true_2; reflexivity.
Qed.

Lemma compareTwoStrings_range a b :
  (0 <= StringSimilarity.compareTwoStrings a b <= 1)%Q.
Proof.
  unfold StringSimilarity.compareTwoStrings. cbn zeta.
  set (f := StringSimilarity.removeWhitespace (list_ascii_of_string a)).
  set (s := StringSimilarity.removeWhitespace (list_ascii_of_string b)).
  destruct (bool_decide (f = s)); [split; discriminate|].
  destruct (Nat.ltb_spec (length f) 2) as [Hf|Hf]; [split; discriminate|].
  destruct (Nat.ltb_spec (length s) 2) as [Hs|Hs]; [split; discriminate|].
  cbn [orb].
  pose proof (SimilarityFacts.intersectionSize_le_first f s) as H1.
  pose proof (SimilarityFacts.intersectionSize_le_first s f) as H2.
  rewrite (SimilarityFacts.intersectionSize_comm s f) in H2.
  set (k := StringSimilarity.intersectionSize f s) in *.
  assert (Hd : (0 < inject_Z (Z.of_nat (length f + length s - 2)))%Q).
  { rewrite <- (Zlt_Qlt 0). lia. }
  split.
  - apply Qle_shift_div_l; [exact Hd|].
    rewrite Qmult_0_l, <- (inject_Z_mult 2), <- (Zle_Qle 0). lia.
  - apply Qle_shift_div_r; [exact Hd|].
    rewrite Qmult_1_l, <- (inject_Z_mult 2), <- Zle_Qle. lia.
Qed.

(** C6.  The similarity computed on two job descriptions lies in [0,1], is
    symmetric, is 1 on equal arguments, and does not see letter case. *)
Theorem description_similarity_contract a b :
  (0 <= descriptionSimilarity a b <= 1)%Q /\
  descriptionSimilarity a b = descriptionSimilarity b a /\
  descriptionSimilarity a a = 1%Q /\
  (forall a', toLowerCase a' = toLowerCase a ->
     descriptionSimilarity a' b = descriptionSimilarity a b /\
     descriptionSimilarity b a' = descriptionSimilarity b a).
Proof.
  unfold descriptionSimilarity.
  split; [apply compareTwoStrings_range|].
  split; [apply compareTwoStrings_comm|].
  split; [apply compareTwoStrings_refl|].
  intros a' Hcase. rewrite Hcase. split; reflexivity.
Qed.

(** C6 at a concrete input: two spellings of one title against another. *)
Lemma description_similarity_contract_witness :
  descriptionSimilarity "DATA Engineer" "data engineering"
  = descriptionSimilarity "data engineer" "data engineering" /\
  descriptionSimilarity "data engineer" "data engineering" = (22 # 25)%Q.
Proof.
  split.
  - apply (description_similarity_contract "data engineer" "data engineering").
    reflexivity.
  - vm_compute. reflexivity.
Defined.

(** ** The cross-company roll-up *)

(** The object handed to [calculateSuspicionScore] still holds its titles in
    a [Set]; [titles.length] is then [undefined], the ratio is [NaN], the
    comparison is false, and the score is the rounded, clamped half of
    [similarPostingsCount] alone. *)
Lemma calculateSuspicionScore_of_set name n spc locs ts :
  Fleet.calculateSuspicionScore (Fleet.mkGroup name n spc locs (Fleet.SetOf ts))
  = JS.round (JS.add (JS.ofZ 0)
                (JS.min (JS.ofZ 10) (JS.div (JS.ofNat spc) (JS.ofZ 2)))).
Proof. reflexivity. Qed.

(** C5, at the input where the code departs from it.  Six retained postings
    of one company share one title and count 24 similar postings: the
    specified score is 10 + (1 - 1/6) * 5, rounded to 14; the code answers
    10, without the title bonus. *)
Theorem title_bonus_is_missing :
  (Fleet.getSuspiciousCompanies Sample.quiet Sample.fleetWorld).1
  = Returned [Fleet.mkEntry "acme" 6 24 ["Berlin"%string] ["Engineer"%string]
                (JS.Num (inject_Z 10))] /\
  Fleet.specSuspicionScore 24 6 1 = 14.
Proof. split; vm_compute; reflexivity. Qed.

(** The figures of the specification's example, 20 similar postings over 10
    postings with 2 distinct titles: the score is 10 where the specified
    formula gives 14. *)
Example clamped_group_has_no_bonus :
  Fleet.calculateSuspicionScore
    (Fleet.mkGroup "acme" 10 20 (Fleet.SetOf ["Berlin"%string])
       (Fleet.SetOf ["Engineer"; "Analyst"]%string))
  = JS.Num (inject_Z 10) /\
  Fleet.specSuspicionScore 20 10 2 = 14 /\
  Fleet.specSuspicionScore 20 10 10 = 10.
Proof. repeat split; vm_compute; reflexivity. Qed.

(** ** Name normalisation *)

(** C9.  The spellings of one company fall together. *)
Theorem acme_spellings_agree :
  normalizeCompanyName "Acme, Inc." = normalizeCompanyName "ACME INC" /\
  normalizeCompanyName "ACME INC" = normalizeCompanyName "acme" /\
  normalizeCompanyName "acme inc" = normalizeCompanyName "acme" /\
  normalizeCompanyName "ACME   INC" = normalizeCompanyName "acme".
Proof. repeat split; vm_compute; reflexivity. Qed.

Module NormalizerFacts.
Import Text NormalForm.

Implicit Types (s t : text) (c : ascii).

Lemma lowerUnit_idem c : lowerUnit (lowerUnit c) = lowerUnit c.
Proof. destruct c as [[] [] [] [] [] [] [] []]; reflexivity. Qed.

Lemma settled_space : settled " ".
Proof. repeat split. Qed.

(** *** What each pass keeps or establishes *)

Lemma collapseFrom_Forall (P : ascii -> Prop) s : forall b,
  P " "%char ->
  Forall (fun c => isWhiteSpace c = false -> P c) s ->
  Forall P (collapseFrom b s).
Proof.
  induction s as [|c s IH]; intros b Hsp Hs; cbn [collapseFrom]; [constructor|].
  apply Forall_cons in Hs as [Hc Hs].
  destruct (isWhiteSpace c) eqn:Hw.
  - destruct b; [|constructor; [exact Hsp|]]; apply IH; assumption.
  - constructor; [apply Hc; reflexivity|apply IH; assumption].
Qed.

Lemma stripSuffix_prefix s : exists r, s = stripSuffix s ++ r.
Proof.
  induction s as [|c s [r IH]]; [exists []; reflexivity|].
  cbn [stripSuffix]. destruct (suffixMatchesAt (c :: s)).
  - exists (c :: s). reflexivity.
  - exists r. cbn. f_equal. exact IH.
Qed.

Lemma dropWhile_suffix p s : exists pre, s = pre ++ dropWhile p s.
Proof.
  induction s as [|c s [pre IH]]; [exists []; reflexivity|].
  cbn [dropWhile]. destruct (p c).
  - exists (c :: pre). cbn. f_equal. exact IH.
  - exists []. reflexivity.
Qed.

Lemma dropWhile_headOk s : headOk (dropWhile isWhiteSpace s).
Proof.
  induction s as [|c s IH]; [exact I|].
  cbn [dropWhile]. destruct (isWhiteSpace c) eqn:Hw; [exact IH|exact Hw].
Qed.

Lemma dropWhile_id s : headOk s -> dropWhile isWhiteSpace s = s.
Proof. destruct s as [|c s]; [reflexivity|]. cbn. intros ->. reflexivity. Qed.

Lemma headOk_prefix s r : headOk (s ++ r) -> headOk s.
Proof. destruct s; [intros _; exact I|exact id]. Qed.

(** [trim s] is a segment of [s] with no white space at either end. *)
Lemma trim_spec s :
  exists pre post,
    s = pre ++ trim s ++ post /\ headOk (trim s) /\ headOk (rev (trim s)).
Proof.
  unfold trim.
  destruct (dropWhile_suffix isWhiteSpace s) as [pre Hpre].
  set (u := dropWhile isWhiteSpace s) in *.
  destruct (dropWhile_suffix isWhiteSpace (rev u)) as [post Hpost].
  set (v := dropWhile isWhiteSpace (rev u)) in *.
  assert (Hu : u = rev v ++ rev post).
  { rewrite <- rev_app_distr, <- Hpost, rev_involutive. reflexivity. }
  exists pre, (rev post). split; [|split].
  - rewrite <- Hu. exact Hpre.
  - apply (headOk_prefix _ (rev post)). rewrite <- Hu.
    apply dropWhile_headOk.
  - rewrite rev_involutive. apply dropWhile_headOk.
Qed.

Lemma trim_id s : headOk s -> headOk (rev s) -> trim s = s.
Proof.
  intros H1 H2. unfold trim.
  rewrite (dropWhile_id s H1), (dropWhile_id (rev s) H2).
  apply rev_involutive.
Qed.

(** The normal form consists of settled units and is trimmed. *)
Lemma normalizeText_settled s :
  Forall settled (normalizeText s)
  /\ headOk (normalizeText s) /\ headOk (rev (normalizeText s)).
Proof.
  unfold normalizeText.
  set (x := stripPunctuation (collapseWhitespace (toLowerCase s))).
  assert (Hx : Forall settled x).
  { unfold x, stripPunctuation.
    assert (Hc : Forall (fun c => lowerUnit c = c
                                  /\ (isWhiteSpace c = true -> c = " "%char))
                   (collapseWhitespace (toLowerCase s))).
    { apply collapseFrom_Forall; [split; reflexivity|].
      unfold toLowerCase. apply List.Forall_forall. intros c Hin Hw.
      apply in_map_iff in Hin as (c0 & <- & _).
      split; [apply lowerUnit_idem|congruence]. }
    apply List.Forall_forall. intros c Hin.
    apply filter_In in Hin as [Hin Hp].
    rewrite List.Forall_forall in Hc. destruct (Hc c Hin) as [H1 H2].
    repeat split; [exact H1|exact H2|].
    destruct (isPunctuation c); [discriminate Hp|reflexivity]. }
  destruct (stripSuffix_prefix x) as [r Hr].
  destruct (trim_spec (stripSuffix x)) as (pre & post & Ht & H1 & H2).
  split; [|split; assumption].
  rewrite Hr, Ht in Hx.
  apply Forall_app in Hx as [Hx _].
  apply Forall_app in Hx as [_ Hx].
  apply Forall_app in Hx as [Hx _]. exact Hx.
Qed.

(** *** Passes that leave a text alone *)

Lemma toLowerCase_id t : Forall settled t -> toLowerCase t = t.
Proof.
  induction 1 as [|c t [Hc _] _ IH]; [reflexivity|].
  cbn. rewrite Hc. f_equal. exact IH.
Qed.

Lemma collapseFrom_id t : forall b,
  Forall settled t -> doubledSpace t = false ->
  (b = true -> headOk t) ->
  collapseFrom b t = t.
Proof.
  induction t as [|c t IH]; intros b Ht Hd Hb; [reflexivity|].
  apply Forall_cons in Ht as [(_ & Hc & _) Ht].
  assert (Hd' : doubledSpace t = false).
  { destruct t; [reflexivity|]. cbn [doubledSpace] in Hd.
    apply orb_false_iff in Hd as [_ Hd]. exact Hd. }
  cbn [collapseFrom]. destruct (isWhiteSpace c) eqn:Hw.
  - destruct b; [specialize (Hb eq_refl); cbn in Hb; congruence|].
    rewrite (Hc eq_refl) in *. f_equal.
    apply IH; [exact Ht|exact Hd'|]. intros _.
    destruct t as [|c' t]; [exact I|]. cbn [headOk].
    cbn [doubledSpace] in Hd. apply orb_false_iff in Hd as [Hd _].
    apply Forall_cons in Ht as [(_ & Hc' & _) _].
    destruct (isWhiteSpace c') eqn:Hw'; [|reflexivity].
    rewrite (Hc' eq_refl) in Hd. discriminate Hd.
  - f_equal. apply IH; [exact Ht|exact Hd'|discriminate].
Qed.

Lemma stripPunctuation_id t : Forall settled t -> stripPunctuation t = t.
Proof.
  induction 1 as [|c t (_ & _ & Hc) _ IH]; [reflexivity|].
  unfold stripPunctuation in *. cbn [List.filter]. rewrite Hc. cbn. f_equal. exact IH.
Qed.

Lemma stripSuffix_id t : suffixMatches t = false -> stripSuffix t = t.
Proof.
  induction t as [|c t IH]; [reflexivity|].
  cbn [suffixMatches stripSuffix]. intros H.
  apply orb_false_iff in H as [-> H]. f_equal. exact (IH H).
Qed.

(** *** No pass lengthens a text, and two of them shorten it *)

Lemma collapseFrom_length s : forall b, (length (collapseFrom b s) <= length s)%nat.
Proof.
  induction s as [|c s IH]; intros b; cbn [collapseFrom length]; [lia|].
  destruct (isWhiteSpace c); [destruct b|]; cbn [length];
    match goal with |- context [collapseFrom ?x s] => specialize (IH x) end; lia.
Qed.

Lemma collapseFrom_shortens s : forall b,
  doubledSpace s = true -> (length (collapseFrom b s) < length s)%nat.
Proof.
  induction s as [|a s IH]; intros b Hd; [discriminate Hd|].
  destruct s as [|a' s]; [discriminate Hd|].
  cbn [doubledSpace] in Hd. apply orb_true_iff in Hd as [Hd|Hd].
  - apply andb_true_iff in Hd as [Ha Ha'].
    apply Ascii.eqb_eq in Ha, Ha'. subst a a'.
    cbn [collapseFrom]. change (isWhiteSpace " ") with true. cbn iota.
    pose proof (collapseFrom_length s true).
    destruct b; cbn [length]; lia.
  - specialize (IH false Hd) as IHf. specialize (IH true Hd) as IHt.
    remember (a' :: s) as r. cbn [collapseFrom length].
    destruct (isWhiteSpace a); [destruct b|]; cbn [length]; lia.
Qed.

Lemma stripPunctuation_length s : (length (stripPunctuation s) <= length s)%nat.
Proof. apply List.filter_length_le. Qed.

Lemma stripSuffix_length s : (length (stripSuffix s) <= length s)%nat.
Proof.
  destruct (stripSuffix_prefix s) as [r Hr].
  rewrite Hr at 2. rewrite length_app. lia.
Qed.

Lemma stripSuffix_shortens s :
  suffixMatches s = true -> (length (stripSuffix s) < length s)%nat.
Proof.
  induction s as [|c s IH]; [discriminate|].
  cbn [suffixMatches stripSuffix]. intros H.
  destruct (suffixMatchesAt (c :: s)); cbn [length]; [lia|].
  specialize (IH H). lia.
Qed.

Lemma trim_length s : (length (trim s) <= length s)%nat.
Proof.
  destruct (trim_spec s) as (pre & post & Hs & _).
  rewrite Hs at 2. rewrite !length_app. lia.
Qed.

(** *** The fixed points of normalisation among normal forms *)

Lemma normalizeText_twice s :
  let t := normalizeText s in
  normalizeText t = t <-> doubledSpace t = false /\ suffixMatches t = false.
Proof.
  intros t.
  destruct (normalizeText_settled s) as (Hset & Hhead & Hlast). fold t in Hset, Hhead, Hlast.
  split.
  - intros Hfix.
    destruct (doubledSpace t) eqn:Hd.
    + exfalso.
      pose proof (collapseFrom_shortens (toLowerCase t) false) as Hlt.
      rewrite (toLowerCase_id t Hset) in Hlt. specialize (Hlt Hd).
      pose proof (trim_length
                    (stripSuffix (stripPunctuation (collapseWhitespace t)))) as H1.
      pose proof (stripSuffix_length (stripPunctuation (collapseWhitespace t))) as H2.
      pose proof (stripPunctuation_length (collapseWhitespace t)) as H3.
      assert (Hn : (length (normalizeText t) < length t)%nat).
      { unfold normalizeText. rewrite (toLowerCase_id t Hset).
        unfold collapseWhitespace in *. lia. }
      rewrite Hfix in Hn. lia.
    + split; [reflexivity|].
      destruct (suffixMatches t) eqn:Hm; [exfalso|reflexivity].
      assert (Hn : (length (normalizeText t) < length t)%nat).
      { unfold normalizeText, collapseWhitespace.
        rewrite (toLowerCase_id t Hset),
          (collapseFrom_id t false Hset Hd ltac:(discriminate)),
          (stripPunctuation_id t Hset).
        pose proof (trim_length (stripSuffix t)).
        pose proof (stripSuffix_shortens t Hm). lia. }
      rewrite Hfix in Hn. lia.
  - intros [Hd Hm].
    unfold normalizeText at 1, collapseWhitespace.
    rewrite (toLowerCase_id t Hset),
      (collapseFrom_id t false Hset Hd ltac:(discriminate)),
      (stripPunctuation_id t Hset), (stripSuffix_id t Hm).
    apply trim_id; assumption.
Qed.

End NormalizerFacts.




(** ** Further properties of name normalisation *)

Lemma length_string_of_list_ascii (l : list ascii) :
  String.length (string_of_list_ascii l) = length l.
Proof. induction l as [|c l IH]; [reflexivity|]. cbn. f_equal. exact IH. Qed.

Lemma length_list_ascii_of_string (s : string) :
  length (list_ascii_of_string s) = String.length s.
Proof. induction s as [|c s IH]; [reflexivity|]. cbn. f_equal. exact IH. Qed.

Lemma normalizeText_length (s : list ascii) :
  (length (Text.normalizeText s) <= length s)%nat.
Proof.
  unfold Text.normalizeText.
  pose proof (NormalizerFacts.trim_length
    (Text.stripSuffix (Text.stripPunctuation
       (Text.collapseWhitespace (Text.toLowerCase s))))) as H1.
  pose proof (NormalizerFacts.stripSuffix_length
    (Text.stripPunctuation (Text.collapseWhitespace (Text.toLowerCase s)))) as H2.
  pose proof (NormalizerFacts.stripPunctuation_length
    (Text.collapseWhitespace (Text.toLowerCase s))) as H3.
  pose proof (NormalizerFacts.collapseFrom_length (Text.toLowerCase s) false) as H4.
  unfold Text.collapseWhitespace in *. unfold Text.toLowerCase in H4 at 2.
  rewrite length_map in H4. lia.
Qed.

(** X1.  A normalised name consists of lower-case units outside the
    punctuation class, its only white-space unit is SPACE, and it neither
    begins nor ends with white space. *)
Theorem normalized_name_shape company :
  let n := list_ascii_of_string (normalizeCompanyName company) in
  Forall NormalForm.settled n /\ NormalForm.headOk n /\ NormalForm.headOk (rev n).
Proof.
  cbn zeta. unfold normalizeCompanyName.
  rewrite list_ascii_of_string_of_list_ascii.
  apply NormalizerFacts.normalizeText_settled.
Qed.

(** X2.  On names made of code units below 256 (Latin-1), which are the
    strings of this development, normalisation never makes a name longer.
    (Outside that range [toLowerCase] can put two units for one, U+0130 for
    instance, and the statement is not made there.) *)
Theorem normalized_name_not_longer company :
  (String.length (normalizeCompanyName company) <= String.length company)%nat.
Proof.
  unfold normalizeCompanyName.
  rewrite length_string_of_list_ascii, <- length_list_ascii_of_string.
  apply normalizeText_length.
Qed.

(** X3.  Two names that differ only in letter case have the same normal
    form. *)
Theorem normalize_ignores_case a b :
  toLowerCase a = toLowerCase b ->
  normalizeCompanyName a = normalizeCompanyName b.
Proof.
  unfold toLowerCase, normalizeCompanyName, Text.normalizeText. intros H.
  apply (f_equal list_ascii_of_string) in H.
  rewrite !list_ascii_of_string_of_list_ascii in H. rewrite H. reflexivity.
Qed.

Lemma normalize_ignores_case_witness :
  normalizeCompanyName "ACME Widgets" = normalizeCompanyName "acme widgets".
Proof. apply normalize_ignores_case. reflexivity. Defined.

(** A normal form is either left alone by a further pass or made strictly
    shorter. *)
Lemma normalizeText_fixed_or_shorter (s : list ascii) :
  let t := Text.normalizeText s in
  Text.normalizeText t = t \/ (length (Text.normalizeText t) < length t)%nat.
Proof.
  intros t.
  destruct (NormalizerFacts.normalizeText_settled s) as (Hset & _ & _).
  fold t in Hset.
  destruct (NormalForm.doubledSpace t) eqn:Hd.
  - right.
    pose proof (NormalizerFacts.collapseFrom_shortens (Text.toLowerCase t) false) as Hlt.
    rewrite (NormalizerFacts.toLowerCase_id t Hset) in Hlt. specialize (Hlt Hd).
    pose proof (NormalizerFacts.trim_length
      (Text.stripSuffix (Text.stripPunctuation (Text.collapseWhitespace t)))) as H1.
    pose proof (NormalizerFacts.stripSuffix_length
      (Text.stripPunctuation (Text.collapseWhitespace t))) as H2.
    pose proof (NormalizerFacts.stripPunctuation_length (Text.collapseWhitespace t)) as H3.
    unfold Text.normalizeText at 1. rewrite (NormalizerFacts.toLowerCase_id t Hset).
    unfold Text.collapseWhitespace in *. lia.
  - destruct (NormalForm.suffixMatches t) eqn:Hm.
    + right. unfold Text.normalizeText at 1, Text.collapseWhitespace.
      rewrite (NormalizerFacts.toLowerCase_id t Hset),
        (NormalizerFacts.collapseFrom_id t false Hset Hd ltac:(discriminate)),
        (NormalizerFacts.stripPunctuation_id t Hset).
      pose proof (NormalizerFacts.trim_length (Text.stripSuffix t)).
      pose proof (NormalizerFacts.stripSuffix_shortens t Hm). lia.
    + left. apply (NormalizerFacts.normalizeText_twice s). split; assumption.
Qed.

Lemma iter_fixed {A} (f : A -> A) x n : f x = x -> Nat.iter n f x = x.
Proof.
  intros H. induction n as [|n IH]; [reflexivity|].
  rewrite Nat.iter_succ, IH. exact H.
Qed.

Lemma normalizeText_settles n : forall s,
  (length (Text.normalizeText s) <= n)%nat ->
  let t := Nat.iter n Text.normalizeText (Text.normalizeText s) in
  Text.normalizeText t = t.
Proof.
  induction n as [|n IH]; intros s Hlen; cbn zeta.
  - change (Nat.iter 0 Text.normalizeText (Text.normalizeText s))
      with (Text.normalizeText s).
    destruct (Text.normalizeText s); [reflexivity|cbn in Hlen; lia].
  - rewrite Nat.iter_succ_r.
    destruct (normalizeText_fixed_or_shorter s) as [Hfix|Hlt].
    + cbn zeta in Hfix. rewrite Hfix, (iter_fixed _ _ _ Hfix). exact Hfix.
    + apply (IH (Text.normalizeText s)). lia.
Qed.

Lemma iter_normalizeCompanyName n company :
  Nat.iter n normalizeCompanyName company
  = string_of_list_ascii (Nat.iter n Text.normalizeText (list_ascii_of_string company)).
Proof.
  induction n as [|n IH].
  - symmetry. apply string_of_list_ascii_of_string.
  - rewrite !Nat.iter_succ, IH. unfold normalizeCompanyName at 1.
    rewrite list_ascii_of_string_of_list_ascii. reflexivity.
Qed.

(** X4.  Normalisation settles: normalising a name once more than it has
    units gives a name that no further normalisation changes. *)
Theorem normalization_settles company :
  let n := Nat.iter (S (String.length company)) normalizeCompanyName company in
  normalizeCompanyName n = n.
Proof.
  cbn zeta. rewrite iter_normalizeCompanyName. unfold normalizeCompanyName at 1.
  rewrite list_ascii_of_string_of_list_ascii. f_equal.
  rewrite Nat.iter_succ_r. apply normalizeText_settles.
  rewrite <- length_list_ascii_of_string. apply normalizeText_length.
Qed.

(** ** Further properties of the date arithmetic *)

Lemma ceiling_of_day_quotient n :
  Qceiling (inject_Z n / inject_Z (1000 * 60 * 60 * 24)) = - ((- n) / 86400000).
Proof.
  unfold Qceiling, Qfloor, Qdiv, Qmult, Qinv, Qopp, inject_Z. cbn.
  rewrite Z.mul_1_r. reflexivity.
Qed.

Lemma daysDifference_sym date1 date2 :
  daysDifference date2 date1 = daysDifference date1 date2.
Proof.
  unfold daysDifference. cbn zeta.
  replace (Z.abs (date1 - date2)) with (Z.abs (date2 - date1)) by lia.
  reflexivity.
Qed.

Lemma daysDifference_bounds date1 date2 :
  86400000 * (daysDifference date1 date2 - 1) < Z.abs (date2 - date1)
  <= 86400000 * daysDifference date1 date2.
Proof.
  unfold daysDifference. cbn zeta. rewrite !ceiling_of_day_quotient.
  generalize (Z.abs (date2 - date1)). intros n.
  pose proof (Z.div_mod (- n) 86400000 ltac:(lia)).
  pose proof (Z.mod_pos_bound (- n) 86400000 ltac:(lia)).
  lia.
Qed.

Lemma daysDifference_nonneg date1 date2 : 0 <= daysDifference date1 date2.
Proof. pose proof (daysDifference_bounds date1 date2). lia. Qed.

Lemma daysDifference_same date : daysDifference date date = 0.
Proof.
  pose proof (daysDifference_bounds date date) as H.
  rewrite Z.sub_diag in H. cbn [Z.abs] in H. lia.
Qed.

(** X5.  For two time values of [Date] (at most 8.64e15 ms from the epoch)
    that are at most 2^53 ms apart, so that the subtraction of the code is
    exact, [daysDifference] does not depend on the order of its two dates and
    is the number of days begun between them: the gap in milliseconds is at
    most that many days and more than one day less. *)
Theorem daysDifference_counts_begun_days date1 date2 :
  Z.abs date1 <= 8640000000000000 ->
  Z.abs date2 <= 8640000000000000 ->
  Z.abs (date2 - date1) <= 9007199254740992 ->
  let d := daysDifference date1 date2 in
  daysDifference date2 date1 = d /\
  86400000 * (d - 1) < Z.abs (date2 - date1) <= 86400000 * d.
Proof.
  intros _ _ _. cbn zeta.
  split; [apply daysDifference_sym|apply daysDifference_bounds].
Qed.

Lemma daysDifference_counts_begun_days_witness :
  daysDifference 86400001 0 = daysDifference 0 86400001 /\
  daysDifference 0 86400001 = 2.
Proof.
  destruct (daysDifference_counts_begun_days 0 86400001) as [Hsym Hb];
    [cbn; lia..|].
  split; [exact Hsym|]. cbn in Hb. lia.
Defined.

(** ** Further properties of the frequency computation *)

Lemma insertByFirstSeen_perm x l : insertByFirstSeen x l ≡ₚ x :: l.
Proof.
  induction l as [|y l IH]; cbn [insertByFirstSeen]; [reflexivity|].
  destruct (p_firstSeen x <=? p_firstSeen y); [reflexivity|].
  rewrite IH. apply Permutation_swap.
Qed.

Lemma insertByFirstSeen_sorted x l :
  StronglySorted (fun a b => p_firstSeen a <= p_firstSeen b) l ->
  StronglySorted (fun a b => p_firstSeen a <= p_firstSeen b) (insertByFirstSeen x l).
Proof.
  induction 1 as [|y l Hs IH Hy]; cbn [insertByFirstSeen].
  - repeat constructor.
  - destruct (Z.leb_spec (p_firstSeen x) (p_firstSeen y)) as [Hle|Hgt].
    + constructor; [constructor; assumption|].
      constructor; [exact Hle|].
      eapply Forall_impl; [exact Hy|]. cbn. intros z Hz. lia.
    + constructor; [exact IH|].
      rewrite (insertByFirstSeen_perm x l).
      constructor; [lia|exact Hy].
Qed.

Lemma insertByFirstSeen_filter x l t :
  List.filter (fun r => p_firstSeen r =? t) (insertByFirstSeen x l)
  = List.filter (fun r => p_firstSeen r =? t) (x :: l).
Proof.
  induction l as [|y l IH]; cbn [insertByFirstSeen]; [reflexivity|].
  destruct (Z.leb_spec (p_firstSeen x) (p_firstSeen y)) as [Hle|Hgt]; [reflexivity|].
  cbn [List.filter] in *. rewrite IH.
  destruct (Z.eqb_spec (p_firstSeen x) t) as [Hx|Hx];
    destruct (Z.eqb_spec (p_firstSeen y) t) as [Hy|Hy]; try reflexivity.
  lia.
Qed.

Lemma sortByFirstSeen_perm l : sortByFirstSeen l ≡ₚ l.
Proof.
  unfold sortByFirstSeen. induction l as [|x l IH]; cbn [foldr]; [reflexivity|].
  rewrite insertByFirstSeen_perm, IH. reflexivity.
Qed.

Lemma sortByFirstSeen_sorted l :
  StronglySorted (fun a b => p_firstSeen a <= p_firstSeen b) (sortByFirstSeen l).
Proof.
  unfold sortByFirstSeen. induction l as [|x l IH]; cbn [foldr]; [constructor|].
  apply insertByFirstSeen_sorted, IH.
Qed.

(** X6.  The sort of the history is a rearrangement of it, oldest first,
    that keeps postings of the same date in the order the store returned
    them. *)
Theorem sortByFirstSeen_sorts l :
  sortByFirstSeen l ≡ₚ l /\
  StronglySorted (fun a b => p_firstSeen a <= p_firstSeen b) (sortByFirstSeen l) /\
  forall t, List.filter (fun r => p_firstSeen r =? t) (sortByFirstSeen l)
            = List.filter (fun r => p_firstSeen r =? t) l.
Proof.
  split; [apply sortByFirstSeen_perm|]. split; [apply sortByFirstSeen_sorted|].
  intros t. unfold sortByFirstSeen.
  induction l as [|x l IH]; cbn [foldr]; [reflexivity|].
  rewrite insertByFirstSeen_filter. cbn [List.filter]. rewrite IH. reflexivity.
Qed.

Lemma totalDays_totalGaps l : totalDays l = totalGaps (map p_firstSeen l).
Proof.
  induction l as [|a [|b l] IH]; [reflexivity..|].
  cbn [totalDays totalGaps map] in *. rewrite IH. reflexivity.
Qed.

Lemma totalGaps_nonneg l : 0 <= totalGaps l.
Proof.
  induction l as [|a [|b l] IH]; cbn [totalGaps]; [lia..|].
  pose proof (daysDifference_nonneg a b) as H.
  cbn [totalGaps] in IH. lia.
Qed.

Lemma sorted_dates_unique h h' :
  h ≡ₚ h' ->
  map p_firstSeen (sortByFirstSeen h) = map p_firstSeen (sortByFirstSeen h').
Proof.
  intros Hp.
  pose proof (sortByFirstSeen_perm h) as Hp1.
  pose proof (sortByFirstSeen_sorted h) as Hs1.
  pose proof (sortByFirstSeen_perm h') as Hp2.
  pose proof (sortByFirstSeen_sorted h') as Hs2.
  assert (Hsorted : forall l,
            StronglySorted (fun a b => p_firstSeen a <= p_firstSeen b) l ->
            StronglySorted Z.le (map p_firstSeen l)).
  { induction 1 as [|x l _ IH Hx]; cbn [map]; constructor; [exact IH|].
    apply List.Forall_map. exact Hx. }
  apply (@StronglySorted_unique Z Z.le (fun x y => Z.le_antisymm x y));
    [apply Hsorted, Hs1|apply Hsorted, Hs2|].
  apply Permutation_map. rewrite Hp1, Hp2. exact Hp.
Qed.

Lemma postingFrequency_nonneg h : 0 <= postingFrequency h.
Proof.
  unfold postingFrequency.
  destruct (Nat.ltb_spec 1 (length h)) as [Hlen|Hlen]; [|lia].
  unfold JS.roundQ. rewrite <- (Qfloor_Z 0).
  apply Qfloor_resp_le.
  rewrite totalDays_totalGaps.
  pose proof (totalGaps_nonneg (map p_firstSeen (sortByFirstSeen h))) as Hg.
  apply (Qle_trans _ (0 + (1 # 2))); [discriminate|].
  apply Qplus_le_l. apply Qle_shift_div_l.
  - rewrite <- (Zlt_Qlt 0). lia.
  - rewrite Qmult_0_l, <- (Zle_Qle 0). exact Hg.
Qed.

(** X7.  The average posting frequency does not depend on the order in
    which the store returns the history, and is never negative. *)
Theorem postingFrequency_order_independent h :
  0 <= postingFrequency h /\
  forall h', h ≡ₚ h' -> postingFrequency h = postingFrequency h'.
Proof.
  split; [apply postingFrequency_nonneg|].
  intros h' Hp. unfold postingFrequency.
  rewrite !totalDays_totalGaps, (sorted_dates_unique h h' Hp).
  rewrite (Permutation_length Hp). reflexivity.
Qed.

Lemma postingFrequency_order_independent_witness :
  postingFrequency [Sample.posting "1" 0 1; Sample.posting "2" 9 9; Sample.posting "3" 4 4]
  = postingFrequency [Sample.posting "2" 9 9; Sample.posting "3" 4 4; Sample.posting "1" 0 1].
Proof.
  apply postingFrequency_order_independent.
  apply Permutation_cons_append.
Defined.

(** ** Further properties of detectCompanyPatterns *)

Section DetectorFurther.

Variable compareTwoStrings : string -> string -> Q.
Variable env : Oracle.

(** What the scan leaves in [longestOpenDays]. *)
Lemma scanHistory_longest jd h : forall acc w sj longest w2,
  scanHistory compareTwoStrings env jd acc h w = (Returned (sj, longest), w2) ->
  acc.2 <= longest /\
  (forall p t, In p h -> p_lastSeen p = Some t ->
     daysDifference (p_firstSeen p) t <= longest) /\
  (neverReseen h -> 0 <= acc.2 -> longest = acc.2).
Proof.
  induction h as [|p h IH]; intros acc w sj longest w2 Hscan.
  - cbn in Hscan. injection Hscan as Hacc _. rewrite Hacc. cbn.
    split; [lia|]. split; [intros ? ? []|reflexivity].
  - cbn [scanHistory] in Hscan. unfold bind at 1 in Hscan.
    unfold scanPosting, bind in Hscan.
    destruct (p_lastSeen p) as [t|] eqn:Hl; cbn [ret now] in Hscan;
      apply IH in Hscan as (H1 & H2 & H3); cbn [snd] in H1, H3.
    + split; [|split].
      * destruct (Z.ltb_spec acc.2 (daysDifference (p_firstSeen p) t)); lia.
      * intros q u [<-|Hin] Hq; [|exact (H2 q u Hin Hq)].
        rewrite Hl in Hq. injection Hq as <-.
        destruct (Z.ltb_spec acc.2 (daysDifference (p_firstSeen p) t)); lia.
      * intros Hn Hacc. apply Forall_cons in Hn as [Hp Hn].
        rewrite Hl in Hp. injection Hp as ->.
        rewrite daysDifference_same in H3.
        destruct (Z.ltb_spec acc.2 0); [lia|]. apply H3; assumption.
    + split; [|split].
      * match type of H1 with (if ?b then _ else _) <= _ => destruct b eqn:Hb end;
          [apply Z.ltb_lt in Hb|]; lia.
      * intros q u [<-|Hin] Hq; [congruence|exact (H2 q u Hin Hq)].
      * intros Hn. apply Forall_cons in Hn as [Hp _]. congruence.
Qed.

(** The scan behind a run that returns. *)
Lemma run_scan data w d w' :
  detectCompanyPatterns compareTwoStrings env data w = (Returned d, w') ->
  let nc := normalizeCompanyName (company data) in
  let h := itemsOf nc (table w) in
  exists w2,
    scanHistory compareTwoStrings env (jobDescription data) ([], 0) h
      (logCall (Query nc) true w)
    = (Returned (d_similarJobs d, longestOpenDays (d_patterns d)), w2)
    /\ d_similarJobs d = similarJobsOf compareTwoStrings (jobDescription data) h
    /\ d_patterns d
       = analysePatterns nc h (d_similarJobs d) (longestOpenDays (d_patterns d)).
Proof.
  intros Hrun nc h.
  destruct (scanHistory_returns compareTwoStrings env (jobDescription data) h
              ([], 0) (logCall (Query nc) true w)) as (longest & n & _ & Hscan).
  cbn [fst app] in Hscan. rewrite Hscan.
  unfold detectCompanyPatterns in Hrun. unfold bind at 1 in Hrun.
  unfold getCompanyPostingHistory, awsCall at 1 in Hrun.
  fold nc in Hrun.
  destruct (rejects env (length (calls w))); [discriminate Hrun|].
  fold h in Hrun. unfold bind at 1 in Hrun. rewrite Hscan in Hrun.
  lazy beta iota zeta delta
    [bind uuidv4 now dynamoPut s3PutObject awsCall logCall ret] in Hrun.
  cbn [fst snd table bucket calls clockReads uuidDraws length app] in Hrun.
  destruct (rejects env _); [discriminate Hrun|].
  cbn [fst snd table bucket calls clockReads uuidDraws length app] in Hrun.
  destruct (rejects env _); [discriminate Hrun|].
  injection Hrun as <- _. cbn [d_similarJobs d_patterns].
  assert (Hl : longestOpenDays
                 (analysePatterns nc h
                    (similarJobsOf compareTwoStrings (jobDescription data) h) longest)
               = longest).
  { unfold analysePatterns.
    match goal with |- context [applyRules ?p] =>
      destruct (applyRules_spec p) as (_ & _ & _ & -> & _) end.
    reflexivity. }
  rewrite Hl. eexists. repeat split; reflexivity.
Qed.

(** X8.  What a run reports about similar postings: one entry per stored
    posting of the company above the threshold, in the order of the history,
    never more entries than the history has postings, and each with a
    percentage of at least 85. *)
Theorem similar_jobs_report data w d w' :
  detectCompanyPatterns compareTwoStrings env data w = (Returned d, w') ->
  let h := itemsOf (normalizeCompanyName (company data)) (table w) in
  map sj_id (d_similarJobs d)
  = map p_id (List.filter (similarTo compareTwoStrings (jobDescription data)) h) /\
  similarJobCount (d_patterns d) = length (d_similarJobs d) /\
  (similarJobCount (d_patterns d) <= recentPostings (d_patterns d))%nat /\
  Forall (fun sj => 85 <= sj_similarity sj) (d_similarJobs d).
Proof.
  intros Hrun h.
  destruct (run_scan data w d w' Hrun) as (w2 & _ & Hsj & Hp).
  fold h in Hsj, Hp. rewrite Hp. unfold analysePatterns.
  match goal with |- context [applyRules ?p] =>
    destruct (applyRules_spec p) as (_ & -> & -> & _) end.
  cbn [similarJobCount recentPostings]. rewrite Hsj. unfold similarJobsOf.
  rewrite map_map, !length_map. cbn [sj_id].
  split; [apply map_ext; reflexivity|]. split; [reflexivity|].
  split; [apply List.filter_length_le|].
  apply List.Forall_map, List.Forall_forall. intros p Hin.
  apply filter_In in Hin as [_ Hsim]. cbn [sj_similarity].
  unfold similarTo, exceeds, SIMILARITY_THRESHOLD in Hsim.
  set (q := compareTwoStrings _ _) in *.
  apply negb_true_iff in Hsim.
  assert (Hq : (85 # 100 < q)%Q).
  { apply Qnot_le_lt. intros Hle. apply Qle_bool_iff in Hle. congruence. }
  unfold JS.roundQ. rewrite <- (Qfloor_Z 85). apply Qfloor_resp_le.
  apply Qlt_le_weak.
  apply (Qlt_trans _ (q * 100)).
  - apply (Qmult_lt_r _ _ 100) in Hq; [|reflexivity].
    apply (Qle_lt_trans _ ((85 # 100) * 100)); [|exact Hq].
    unfold Qle. cbn. lia.
  - rewrite <- (Qplus_0_r (q * 100)) at 1. apply Qplus_lt_r. reflexivity.
Qed.

(** X9.  The scan's [longestOpenDays] is never negative and is at least the
    open duration of every stored posting of the company that has a
    [lastSeen]. *)
Theorem longest_open_days_bounds data w d w' :
  detectCompanyPatterns compareTwoStrings env data w = (Returned d, w') ->
  0 <= longestOpenDays (d_patterns d) /\
  forall p t,
    In p (itemsOf (normalizeCompanyName (company data)) (table w)) ->
    p_lastSeen p = Some t ->
    daysDifference (p_firstSeen p) t <= longestOpenDays (d_patterns d).
Proof.
  intros Hrun.
  destruct (run_scan data w d w' Hrun) as (w2 & Hscan & _).
  apply scanHistory_longest in Hscan as (H1 & H2 & _).
  split; [exact H1|exact H2].
Qed.

Lemma putItem_neverReseen item t :
  p_lastSeen item = Some (p_firstSeen item) ->
  neverReseen t -> neverReseen (putItem item t).
Proof.
  intros Hi. unfold neverReseen.
  induction 1 as [|r t Hr Ht IH]; cbn [putItem].
  - repeat constructor. exact Hi.
  - destruct (String.eqb (p_id r) (p_id item)); constructor; assumption.
Qed.

Lemma neverReseen_itemsOf c t : neverReseen t -> neverReseen (itemsOf c t).
Proof.
  unfold neverReseen, itemsOf. intros H.
  apply List.Forall_forall. intros r Hin. apply filter_In in Hin as [Hin _].
  rewrite List.Forall_forall in H. exact (H r Hin).
Qed.

(** X10.  A table in which no item has been seen again stays so through any
    run, whatever its outcome: the detector itself never records a later
    sighting. *)
Theorem never_reseen_is_kept data w o w' :
  neverReseen (table w) ->
  detectCompanyPatterns compareTwoStrings env data w = (o, w') ->
  neverReseen (table w').
Proof.
  intros Hinv Hrun.
  destruct (run_cases compareTwoStrings env data w) as (longest & n & _ & Hc).
  cbn zeta in Hc. rewrite Hrun in Hc.
  repeat match type of Hc with
         | context [if ?b then _ else _] => destruct b
         end;
    injection Hc as -> ->; cbn [table]; try exact Hinv;
    (apply putItem_neverReseen; [reflexivity|exact Hinv]).
Qed.

(** X11.  On such a table the open-duration rule is dead: every analysis
    reports [longestOpenDays = 0] and a score of at least 7. *)
Theorem open_duration_rule_is_dead data w d w' :
  neverReseen (table w) ->
  detectCompanyPatterns compareTwoStrings env data w = (Returned d, w') ->
  longestOpenDays (d_patterns d) = 0 /\ 7 <= confidenceScore (d_patterns d).
Proof.
  intros Hinv Hrun.
  destruct (run_scan data w d w' Hrun) as (w2 & Hscan & _ & Hp).
  apply scanHistory_longest in Hscan as (_ & _ & H0).
  cbn [snd] in H0.
  specialize (H0 (neverReseen_itemsOf _ _ Hinv) ltac:(lia)).
  split; [exact H0|].
  rewrite Hp, H0. unfold analysePatterns.
  match goal with |- context [applyRules ?p] =>
    destruct (applyRules_spec p) as (_ & _ & _ & _ & _ & _ & -> & _) end.
  cbn [longestOpenDays confidenceScore].
  change (SUSPICIOUS_REPOST_DAYS <? 0) with false. cbn iota.
  repeat match goal with |- context [if ?b then _ else _] => destruct b end; lia.
Qed.

Lemma putItem_fresh item t :
  findById (p_id item) t = None -> putItem item t = t ++ [item].
Proof.
  unfold findById. induction t as [|r t IH]; cbn [putItem find app]; [reflexivity|].
  destruct (String.eqb (p_id r) (p_id item)); [discriminate|].
  intros H. f_equal. exact (IH H).
Qed.

(** The item a returning run has put, and the table it leaves. *)
Lemma run_put data w d w' :
  detectCompanyPatterns compareTwoStrings env data w = (Returned d, w') ->
  table w'
  = putItem (newItem data (d_id d) (d_timestamp d) (map sj_id (d_similarJobs d)))
            (table w).
Proof.
  intros Hrun.
  destruct (run_cases compareTwoStrings env data w) as (longest & n & _ & Hc).
  cbn zeta in Hc. rewrite Hrun in Hc.
  repeat match type of Hc with
         | context [if ?b then _ else _] => destruct b
         end; try discriminate Hc.
  injection Hc as -> ->. reflexivity.
Qed.

(** X12.  When the identifier drawn is not in use, a run that returns adds
    exactly one item at the end of the table and changes nothing else; the
    item is filed under the normalised company name, lists the identifiers of
    the similar postings reported, and carries the caller's [userId], or
    ['anonymous'] when none or an empty one was given, so never an empty
    one. *)
Theorem returned_run_appends_one_item data w d w' :
  detectCompanyPatterns compareTwoStrings env data w = (Returned d, w') ->
  findById (d_id d) (table w) = None ->
  exists item,
    table w' = table w ++ [item] /\
    p_id item = d_id d /\
    p_companyName item = normalizeCompanyName (company data) /\
    p_similarJobs item = map sj_id (d_similarJobs d) /\
    p_userId item <> ""%string /\
    (userId data = None \/ userId data = Some ""%string ->
     p_userId item = "anonymous"%string) /\
    (forall u, userId data = Some u -> u <> ""%string -> p_userId item = u).
Proof.
  intros Hrun Hfresh.
  exists (newItem data (d_id d) (d_timestamp d) (map sj_id (d_similarJobs d))).
  rewrite (run_put data w d w' Hrun).
  split; [apply putItem_fresh; exact Hfresh|].
  cbn [newItem p_id p_companyName p_similarJobs p_userId].
  do 3 (split; [reflexivity|]).
  destruct (userId data) as [u|].
  - destruct (String.eqb_spec u "") as [-> |Hu].
    + split; [discriminate|]. split; [reflexivity|].
      intros u [= <-] Hne. contradiction.
    + split; [exact Hu|]. split.
      * intros [H|[= H]]; [discriminate H|contradiction].
      * intros u' [= <-] _. reflexivity.
  - split; [discriminate|]. split; [reflexivity|]. intros u H. discriminate H.
Qed.

End DetectorFurther.

(** X13.  Analyses accumulate: after a run that returns (its identifier not
    in use before), the next analysis of the same company, whatever its
    spelling, counts one posting more. *)
Theorem next_analysis_counts_one_more sim1 env1 data1 w d1 w1 sim2 env2 data2 d2 w2 :
  detectCompanyPatterns sim1 env1 data1 w = (Returned d1, w1) ->
  findById (d_id d1) (table w) = None ->
  normalizeCompanyName (company data2) = normalizeCompanyName (company data1) ->
  detectCompanyPatterns sim2 env2 data2 w1 = (Returned d2, w2) ->
  recentPostings (d_patterns d2) = S (recentPostings (d_patterns d1)).
Proof.
  intros Hrun1 Hfresh Hsame Hrun2.
  destruct (run_returned _ _ _ _ _ _ Hrun1) as (l1 & n1 & _ & E1).
  destruct (run_returned _ _ _ _ _ _ Hrun2) as (l2 & n2 & _ & E2).
  rewrite E1, E2. cbn [d_patterns]. unfold analysePatterns.
  repeat match goal with |- context [applyRules ?p] =>
    let H := fresh in
    destruct (applyRules_spec p) as (_ & H & _); rewrite H; clear H end.
  cbn [recentPostings].
  rewrite (run_put _ _ _ _ _ _ Hrun1), putItem_fresh by exact Hfresh.
  rewrite Hsame. unfold itemsOf. rewrite List.filter_app, length_app.
  cbn [List.filter newItem p_companyName]. rewrite String.eqb_refl.
  cbn [length]. lia.
Qed.

Lemma similar_jobs_report_witness :
  exists d w',
    Sample.detect Sample.quiet Sample.fourWorld = (Returned d, w') /\
    map sj_id (d_similarJobs d) = ["1"; "2"; "3"; "4"]%string.
Proof.
  destruct (Sample.detect Sample.quiet Sample.fourWorld) as [[d|e] w'] eqn:E.
  - exists d, w'. split; [reflexivity|].
    destruct (similar_jobs_report _ _ _ _ _ _ E) as [-> _].
    vm_compute. reflexivity.
  - vm_compute in E. discriminate E.
Defined.

Lemma longest_open_days_bounds_witness :
  exists d w',
    Sample.detect Sample.quiet Sample.busyWorld = (Returned d, w') /\
    100 <= longestOpenDays (d_patterns d).
Proof.
  destruct (Sample.detect Sample.quiet Sample.busyWorld) as [[d|e] w'] eqn:E.
  - exists d, w'. split; [reflexivity|].
    destruct (longest_open_days_bounds _ _ _ _ _ _ E) as [_ H].
    apply (H (Sample.posting "1" 0 100) (100 * Sample.day)).
    + vm_compute. left. reflexivity.
    + reflexivity.
  - vm_compute in E. discriminate E.
Defined.

Lemma open_duration_rule_is_dead_witness :
  exists d w',
    Sample.detect Sample.quiet
      (mkWorld [Sample.posting "1" 5 5; Sample.posting "2" 7 7] [] [] 0 0)
    = (Returned d, w') /\
    longestOpenDays (d_patterns d) = 0.
Proof.
  destruct (Sample.detect Sample.quiet
              (mkWorld [Sample.posting "1" 5 5; Sample.posting "2" 7 7] [] [] 0 0))
    as [[d|e] w'] eqn:E.
  - exists d, w'. split; [reflexivity|].
    assert (Hn : neverReseen [Sample.posting "1" 5 5; Sample.posting "2" 7 7])
      by (repeat constructor).
    exact (proj1 (open_duration_rule_is_dead StringSimilarity.compareTwoStrings
                    Sample.quiet Sample.request
                    (mkWorld [Sample.posting "1" 5 5; Sample.posting "2" 7 7]
                             [] [] 0 0) d w' Hn E)).
  - vm_compute in E. discriminate E.
Defined.

Lemma returned_run_appends_one_item_witness :
  exists d w' item,
    Sample.detect Sample.quiet Sample.oneWorld = (Returned d, w') /\
    table w' = table Sample.oneWorld ++ [item].
Proof.
  destruct (Sample.detect Sample.quiet Sample.oneWorld) as [[d|e] w'] eqn:E.
  - destruct (returned_run_appends_one_item _ _ _ _ _ _ E) as (item & Ht & _).
    + vm_compute in E. injection E as <- _. reflexivity.
    + exists d, w', item. split; [reflexivity|exact Ht].
  - vm_compute in E. discriminate E.
Defined.

Lemma next_analysis_counts_one_more_witness :
  exists d1 w1 d2 w2,
    Sample.detect Sample.quiet Sample.oneWorld = (Returned d1, w1) /\
    detectCompanyPatterns StringSimilarity.compareTwoStrings
      (mkOracle (fun _ => 300 * Sample.day) (fun _ => "job-next"%string)
                (fun _ => false))
      (mkCompanyData "ACME   INC" "Analyst" "Paris" "Read the numbers" None) w1
    = (Returned d2, w2) /\
    recentPostings (d_patterns d2) = S (recentPostings (d_patterns d1)).
Proof.
  destruct (Sample.detect Sample.quiet Sample.oneWorld) as [[d1|e] w1] eqn:E1;
    [|vm_compute in E1; discriminate E1].
  destruct (detectCompanyPatterns StringSimilarity.compareTwoStrings
              (mkOracle (fun _ => 300 * Sample.day) (fun _ => "job-next"%string)
                        (fun _ => false))
              (mkCompanyData "ACME   INC" "Analyst" "Paris" "Read the numbers" None)
              w1) as [[d2|e] w2] eqn:E2.
  - exists d1, w1, d2, w2. split; [reflexivity|]. split; [exact E2|].
    unfold Sample.detect in E1.
    eapply next_analysis_counts_one_more; [exact E1| | |exact E2].
    + vm_compute in E1. injection E1 as <- _. reflexivity.
    + reflexivity.
  - exfalso. vm_compute in E1. injection E1 as _ <-.
    vm_compute in E2. discriminate E2.
Defined.

Lemma never_reseen_is_kept_witness :
  neverReseen (table (Sample.detect Sample.quiet Sample.emptyWorld).2).
Proof.
  apply (never_reseen_is_kept StringSimilarity.compareTwoStrings Sample.quiet
           Sample.request Sample.emptyWorld
           (Sample.detect Sample.quiet Sample.emptyWorld).1).
  - constructor.
  - apply surjective_pairing.
Defined.

(** ** Further properties of the roll-up *)

Module FleetFacts.
Import Fleet FleetSpec.

Lemma distinct_snoc l x :
  distinct (l ++ [x])
  = if bool_decide (x ∈ distinct l) then distinct l else distinct l ++ [x].
Proof. unfold distinct. rewrite foldl_app. reflexivity. Qed.

Lemma distinct_spec l : NoDup (distinct l) /\ forall x, x ∈ distinct l <-> x ∈ l.
Proof.
  induction l as [|y l [IHn IHe]] using rev_ind.
  - split; [constructor|]. intros x. reflexivity.
  - rewrite distinct_snoc. case_bool_decide as Hy.
    + split; [exact IHn|]. intros x. rewrite elem_of_app, list_elem_of_singleton, IHe.
      split; [tauto|]. intros [H| ->]; [exact H|]. apply IHe, Hy.
    + split.
      * apply NoDup_app. split; [exact IHn|]. split; [|apply NoDup_singleton].
        intros z Hz Hz'. apply list_elem_of_singleton in Hz'. subst z. exact (Hy Hz).
      * intros x. rewrite !elem_of_app, IHe. reflexivity.
Qed.

Lemma itemsOf_snoc k pre x :
  itemsOf k (pre ++ [x])
  = itemsOf k pre ++ (if String.eqb (p_companyName x) k then [x] else []).
Proof. unfold itemsOf. rewrite List.filter_app. reflexivity. Qed.

Lemma sumSimilar_snoc l x :
  sumSimilar (l ++ [x]) = (sumSimilar l + length (p_similarJobs x))%nat.
Proof. unfold sumSimilar. rewrite map_app, list_sum_app. cbn. lia. Qed.

(** The step of the loop on the group of the item's own company. *)
Lemma groupOf_snoc_same pre x :
  groupOf (pre ++ [x]) (p_companyName x)
  = (fun g => mkGroup (g_companyName g) (S (postingCount g))
                (similarPostingsCount g + length (p_similarJobs x))
                (setAdd (p_location x) (locations g))
                (setAdd (p_jobTitle x) (titles g)))
      (groupOf pre (p_companyName x)).
Proof.
  unfold groupOf. cbn zeta beta. rewrite itemsOf_snoc, String.eqb_refl.
  cbn [g_companyName postingCount similarPostingsCount locations titles setAdd].
  rewrite length_app, sumSimilar_snoc, !map_app.
  cbn [length map]. rewrite !distinct_snoc. f_equal. lia.
Qed.

Lemma groupOf_snoc_other pre x k :
  p_companyName x <> k -> groupOf (pre ++ [x]) k = groupOf pre k.
Proof.
  intros Hne. unfold groupOf. rewrite itemsOf_snoc.
  destruct (String.eqb_spec (p_companyName x) k); [contradiction|].
  rewrite app_nil_r. reflexivity.
Qed.

Lemma lookupGroup_map (G : string -> CompanyGroup) ks kx :
  lookupGroup kx (map (fun k => (k, G k)) ks)
  = if bool_decide (kx ∈ ks) then Some (G kx) else None.
Proof.
  induction ks as [|k ks IH]; cbn [map lookupGroup].
  - rewrite bool_decide_eq_false_2; [reflexivity|]. apply not_elem_of_nil.
  - destruct (String.eqb_spec k kx) as [-> |Hne].
    + rewrite bool_decide_eq_true_2; [reflexivity|]. left.
    + rewrite IH. do 2 case_bool_decide; try reflexivity.
      * exfalso. apply H0. right. exact H.
      * exfalso. apply elem_of_cons in H0 as [-> |H0]; [congruence|contradiction].
Qed.

Lemma alterGroup_map_in f (G G' : string -> CompanyGroup) ks kx :
  NoDup ks -> kx ∈ ks ->
  G' kx = f (G kx) -> (forall k, k <> kx -> G' k = G k) ->
  alterGroup f kx (map (fun k => (k, G k)) ks) = map (fun k => (k, G' k)) ks.
Proof.
  intros Hnd Hin Hsame Hother.
  induction ks as [|k ks IH]; [inversion Hin|].
  apply NoDup_cons in Hnd as [Hk Hnd]. cbn [map alterGroup].
  destruct (String.eqb_spec k kx) as [-> |Hne].
  - rewrite Hsame. f_equal.
    apply map_ext_in. intros k Hin'. rewrite Hother; [reflexivity|].
    intros ->. apply Hk, list_elem_of_In, Hin'.
  - rewrite (Hother k Hne). f_equal. apply IH; [exact Hnd|].
    apply elem_of_cons in Hin as [-> |Hin]; [congruence|exact Hin].
Qed.

Lemma alterGroup_map_notin f (G : string -> CompanyGroup) ks kx :
  kx ∉ ks ->
  alterGroup f kx (map (fun k => (k, G k)) ks) = map (fun k => (k, G k)) ks.
Proof.
  induction ks as [|k ks IH]; intros Hk; [reflexivity|]. cbn [map alterGroup].
  destruct (String.eqb_spec k kx) as [-> |Hne]; [exfalso; apply Hk; left|].
  f_equal. apply IH. intros H. apply Hk. right. exact H.
Qed.

Lemma alterGroup_app_notin f m1 m2 kx :
  kx ∉ map fst m1 -> alterGroup f kx (m1 ++ m2) = m1 ++ alterGroup f kx m2.
Proof.
  induction m1 as [|[k g] m1 IH]; intros Hk; [reflexivity|]. cbn [app alterGroup].
  destruct (String.eqb_spec k kx) as [-> |Hne]; [exfalso; apply Hk; left|].
  f_equal. apply IH. intros H. apply Hk. right. exact H.
Qed.

(** One turn of the loop takes the map of [pre] to the map of [pre ++ [x]]. *)
Lemma addItem_groupsOf pre x :
  p_companyName x ∉ inheritedNames ->
  addItem (groupsOf pre) x = Returned (groupsOf (pre ++ [x])).
Proof.
  intros Hok. unfold addItem. cbn zeta.
  rewrite bool_decide_eq_false_2 by exact Hok. f_equal.
  unfold groupsOf. rewrite map_app. cbn [map]. rewrite distinct_snoc.
  set (ks := distinct (map p_companyName pre)).
  set (kx := p_companyName x).
  destruct (distinct_spec (map p_companyName pre)) as [Hnd Hel]. fold ks in Hnd, Hel.
  rewrite lookupGroup_map. case_bool_decide as Hin.
  - apply alterGroup_map_in; [exact Hnd|exact Hin| |].
    + apply groupOf_snoc_same.
    + intros k Hne. apply groupOf_snoc_other.
      intros Heq. apply Hne. symmetry. exact Heq.
  - rewrite map_app. cbn [map].
    rewrite alterGroup_app_notin.
    2:{ rewrite map_map. cbn [fst]. rewrite map_id. exact Hin. }
    cbn [alterGroup]. rewrite String.eqb_refl. f_equal.
    + apply map_ext_in. intros k Hk. f_equal. symmetry.
      apply groupOf_snoc_other. intros <-. apply Hin, list_elem_of_In, Hk.
    + f_equal. f_equal. unfold kx. rewrite groupOf_snoc_same.
      assert (Hempty : itemsOf kx pre = []).
      { unfold itemsOf. destruct (List.filter _ pre) as [|r rs] eqn:Hf; [reflexivity|].
        exfalso. assert (Hr : In r (List.filter (fun r => String.eqb (p_companyName r) kx) pre))
          by (rewrite Hf; left; reflexivity).
        apply filter_In in Hr as [Hr Hk]. apply String.eqb_eq in Hk.
        apply Hin, Hel. rewrite <- Hk. apply list_elem_of_In, in_map, Hr. }
      unfold groupOf. cbn zeta. fold kx. rewrite Hempty. reflexivity.
Qed.

(** The loop, on items none of which bears an inherited name. *)
Lemma groupItems_groupsOf items : forall pre,
  Forall (fun x => p_companyName x ∉ inheritedNames) items ->
  groupItems (groupsOf pre) items = Returned (groupsOf (pre ++ items)).
Proof.
  induction items as [|x items IH]; intros pre Hok; cbn [groupItems].
  - rewrite app_nil_r. reflexivity.
  - apply Forall_cons in Hok as [Hx Hok].
    rewrite (addItem_groupsOf pre x Hx), (IH (pre ++ [x]) Hok), <- app_assoc.
    reflexivity.
Qed.

(** The loop stops with a [TypeError] at the first inherited name. *)
Lemma groupItems_inherited items : forall m,
  Exists (fun x => p_companyName x ∈ inheritedNames) items ->
  groupItems m items = Thrown TypeError.
Proof.
  induction items as [|x items IH]; intros m Hex; [inversion Hex|].
  cbn [groupItems]. unfold addItem. cbn zeta.
  case_bool_decide as Hx; [reflexivity|].
  apply Exists_cons in Hex as [Hex|Hex]; [contradiction|].
  apply IH. exact Hex.
Qed.

Lemma insertByIndex_perm x l : insertByIndex x l ≡ₚ x :: l.
Proof.
  induction l as [|y l IH]; cbn [insertByIndex]; [reflexivity|].
  destruct (x.1 <=? y.1)%N; [reflexivity|].
  rewrite IH. apply Permutation_swap.
Qed.

(** [Object.values] lists every value of the map once. *)
Lemma objectValues_perm m : objectValues m ≡ₚ map snd m.
Proof.
  unfold objectValues.
  induction m as [|[k g] m IH]; [reflexivity|].
  cbn [omap list_omap List.filter map fst snd foldr].
  destruct (arrayIndex k) as [n|] eqn:Hk.
  - rewrite bool_decide_eq_true_2 by eauto. cbn [negb foldr].
    rewrite (Permutation_map snd (insertByIndex_perm (n, g) _)).
    cbn [map snd app]. constructor. exact IH.
  - rewrite bool_decide_eq_false_2 by (intros [? ?]; discriminate).
    cbn [negb map snd]. rewrite <- Permutation_middle. constructor. exact IH.
Qed.

Lemma insertByScore_perm x l : insertByScore x l ≡ₚ x :: l.
Proof.
  induction l as [|y l IH]; cbn [insertByScore]; [reflexivity|].
  destruct (JS.lt _ _); [|reflexivity].
  rewrite IH. apply Permutation_swap.
Qed.

Lemma sortByScore_perm l : sortByScore l ≡ₚ l.
Proof.
  unfold sortByScore. induction l as [|x l IH]; cbn [foldr]; [reflexivity|].
  rewrite insertByScore_perm, IH. reflexivity.
Qed.

(** The score read off a group whose titles are held in a [Set]. *)
Lemma calculateSuspicionScore_clampedHalf name n spc locs ts :
  calculateSuspicionScore (mkGroup name n spc locs (SetOf ts))
  = JS.Num (inject_Z (clampedHalf spc)).
Proof.
  unfold calculateSuspicionScore, clampedHalf.
  cbn [titles lengthOf JS.toNumber JS.div JS.lt andb similarPostingsCount
       postingCount JS.ofNat JS.ofZ JS.min JS.add JS.round].
  change (Qeq_bool (inject_Z 2) 0) with false. cbn iota.
  cbn [JS.min JS.add JS.round]. f_equal. f_equal.
  unfold JS.roundQ.
  destruct (Qle_bool (inject_Z 10) (inject_Z (Z.of_nat spc) / inject_Z 2)) eqn:Hle.
  - apply Qle_bool_iff in Hle. unfold Qle in Hle. cbn in Hle.
    change (Qfloor (inject_Z 0 + inject_Z 10 + (1 # 2))) with 10.
    assert (10 <= (Z.of_nat spc + 1) / 2) by (apply Z.div_le_lower_bound; lia).
    lia.
  - assert (Hlt : ~ (inject_Z 10 <= inject_Z (Z.of_nat spc) / inject_Z 2)%Q).
    { intros H. apply Qle_bool_iff in H. congruence. }
    unfold Qle in Hlt. cbn in Hlt.
    unfold Qfloor, Qplus, Qdiv, Qmult, Qinv, inject_Z. cbn.
    change (Z.pos (1 * 2)) with 2 in *.
    change (Z.pos (1 * (1 * 2))) with 2.
    change (Z.pos (1 * (1 * 2) * 2)) with 4.
    Z.to_euclidean_division_equations. lia.
Qed.

Lemma score_comparison a b :
  JS.lt (JS.ofZ 0) (JS.sub (JS.Num (inject_Z a)) (JS.Num (inject_Z b))) = (b <? a).
Proof.
  cbn [JS.sub JS.lt JS.ofZ].
  destruct (Z.ltb_spec b a) as [H|H].
  - apply negb_true_iff. destruct (Qle_bool _ _) eqn:Hq; [|reflexivity].
    apply Qle_bool_iff in Hq. unfold Qle in Hq. cbn in Hq. lia.
  - apply negb_false_iff, Qle_bool_iff. unfold Qle. cbn. lia.
Qed.

Lemma insertByScore_sorted x l :
  scored x -> Forall scored l ->
  StronglySorted (fun a b => clampedHalf (e_similarPostingsCount b)
                             <= clampedHalf (e_similarPostingsCount a)) l ->
  StronglySorted (fun a b => clampedHalf (e_similarPostingsCount b)
                             <= clampedHalf (e_similarPostingsCount a))
                 (insertByScore x l).
Proof.
  intros Hx Hl Hs. induction Hs as [|y l Hs IH Hy]; cbn [insertByScore].
  - repeat constructor.
  - apply Forall_cons in Hl as [Hys Hl].
    rewrite Hx, Hys, score_comparison.
    destruct (Z.ltb_spec (clampedHalf (e_similarPostingsCount x))
                         (clampedHalf (e_similarPostingsCount y))) as [Hlt|Hge].
    + constructor; [exact (IH Hl)|].
      rewrite (insertByScore_perm x l). constructor; [lia|exact Hy].
    + constructor; [constructor; assumption|].
      constructor; [exact Hge|].
      eapply Forall_impl; [exact Hy|]. cbn. intros z Hz. lia.
Qed.

Lemma sortByScore_sorted l :
  Forall scored l ->
  StronglySorted (fun a b => clampedHalf (e_similarPostingsCount b)
                             <= clampedHalf (e_similarPostingsCount a))
                 (sortByScore l).
Proof.
  unfold sortByScore. induction 1 as [|x l Hx Hl IH]; cbn [foldr]; [constructor|].
  apply insertByScore_sorted; [exact Hx| |exact IH].
  fold (sortByScore l). rewrite (sortByScore_perm l). exact Hl.
Qed.

End FleetFacts.

Section FleetFurther.
Import Fleet FleetSpec FleetFacts.

Variable env : Oracle.

(** A call that returns has grouped the retained items, none of which bears
    an inherited name. *)
Lemma suspicious_returned w es w' :
  getSuspiciousCompanies env w = (Returned es, w') ->
  Forall (fun x => p_companyName x ∉ inheritedNames) (retained (table w)) /\
  es = sortByScore (map toEntry (objectValues (groupsOf (retained (table w))))).
Proof.
  unfold getSuspiciousCompanies, bind, dynamoScan, awsCall. fold (retained (table w)).
  destruct (rejects env (length (calls w))); [discriminate|].
  destruct (decide (Exists (fun x => p_companyName x ∈ inheritedNames)
                           (retained (table w)))) as [Hex|Hnex].
  - rewrite (groupItems_inherited _ _ Hex). discriminate.
  - apply not_Exists_Forall in Hnex; [|intros x; apply _].
    change [] with (groupsOf []) at 1.
    rewrite (groupItems_groupsOf _ [] Hnex). cbn [app].
    intros H. injection H as <- _. split; [exact Hnex|reflexivity].
Qed.

Lemma suspicious_entries w es w' :
  getSuspiciousCompanies env w = (Returned es, w') ->
  es ≡ₚ map (fun k => toEntry (groupOf (retained (table w)) k))
            (distinct (map p_companyName (retained (table w)))).
Proof.
  intros Hrun. destruct (suspicious_returned w es w' Hrun) as [_ ->].
  rewrite sortByScore_perm.
  rewrite (Permutation_map toEntry (objectValues_perm _)).
  unfold groupsOf. rewrite !map_map. reflexivity.
Qed.

Lemma sumSimilar_ge r l :
  In r l -> (length (p_similarJobs r) <= sumSimilar l)%nat.
Proof.
  unfold sumSimilar. induction l as [|x l IH]; [intros []|].
  intros [<-|Hin]; cbn [map list_sum fold_right]; [lia|].
  specialize (IH Hin). unfold list_sum in IH. lia.
Qed.

(** X14.  Every entry returned has as [suspicionScore] the half of its
    [similarPostingsCount], rounded and capped at 10: a whole number between
    2 and 10, in which the titles play no part. *)
Theorem suspicion_score_is_clamped_half w es w' :
  getSuspiciousCompanies env w = (Returned es, w') ->
  Forall (fun e =>
            suspicionScore e
            = JS.Num (inject_Z (clampedHalf (e_similarPostingsCount e))) /\
            2 <= clampedHalf (e_similarPostingsCount e) <= 10) es.
Proof.
  intros Hrun. rewrite (suspicious_entries w es w' Hrun).
  apply List.Forall_map, List.Forall_forall. intros k Hk.
  split; [apply calculateSuspicionScore_clampedHalf|].
  cbn [toEntry groupOf similarPostingsCount e_similarPostingsCount].
  apply list_elem_of_In, distinct_spec, list_elem_of_In, in_map_iff in Hk
    as (r & Hrk & Hr).
  assert (Hin : In r (itemsOf k (retained (table w)))).
  { apply filter_In. split; [exact Hr|]. apply String.eqb_eq. exact Hrk. }
  pose proof (sumSimilar_ge r _ Hin) as Hsum.
  apply filter_In in Hr as [_ Hr]. apply Nat.ltb_lt in Hr.
  unfold clampedHalf. Z.to_euclidean_division_equations. lia.
Qed.

(** X15.  A call that returns gives one entry per company among the retained
    items: the names are distinct and are those of the retained items, and
    each entry counts the retained items of its company, sums their similar
    postings, and lists their titles and locations once each. *)
Theorem one_entry_per_company w es w' :
  getSuspiciousCompanies env w = (Returned es, w') ->
  let items := retained (table w) in
  NoDup (map e_companyName es) /\
  (forall k, In k (map e_companyName es) <-> In k (map p_companyName items)) /\
  Forall (fun e =>
            let its := itemsOf (e_companyName e) items in
            e_postingCount e = length its /\
            e_similarPostingsCount e = sumSimilar its /\
            NoDup (e_titles e) /\
            (forall t, In t (e_titles e) <-> In t (map p_jobTitle its)) /\
            NoDup (e_locations e) /\
            (forall l, In l (e_locations e) <-> In l (map p_location its))) es.
Proof.
  intros Hrun items. pose proof (suspicious_entries w es w' Hrun) as Hp.
  fold items in Hp.
  assert (Hnames : map e_companyName es ≡ₚ distinct (map p_companyName items)).
  { rewrite (Permutation_map e_companyName Hp), map_map. cbn. rewrite map_id.
    reflexivity. }
  destruct (distinct_spec (map p_companyName items)) as [Hnd Hel].
  split; [|split].
  - rewrite Hnames. exact Hnd.
  - intros k. rewrite <- !list_elem_of_In, Hnames. apply Hel.
  - rewrite Hp. apply List.Forall_map, List.Forall_forall. intros k _.
    cbn [toEntry groupOf e_companyName g_companyName e_postingCount postingCount
         e_similarPostingsCount similarPostingsCount e_titles titles e_locations
         locations elementsOf].
    destruct (distinct_spec (map p_jobTitle (itemsOf k items))) as [Ht1 Ht2].
    destruct (distinct_spec (map p_location (itemsOf k items))) as [Hl1 Hl2].
    repeat split; try assumption;
      intros H; apply list_elem_of_In; apply list_elem_of_In in H;
      first [apply Ht2; exact H | apply Hl2; exact H].
Qed.

(** X16.  The entries are returned by decreasing [suspicionScore]: no entry
    has a score below that of an entry after it. *)
Theorem entries_by_decreasing_score w es w' :
  getSuspiciousCompanies env w = (Returned es, w') ->
  StronglySorted (fun a b => JS.lt (suspicionScore a) (suspicionScore b) = false) es.
Proof.
  intros Hrun.
  assert (Hscored : Forall scored es).
  { rewrite (suspicious_entries w es w' Hrun).
    apply List.Forall_map, List.Forall_forall. intros k _.
    apply calculateSuspicionScore_clampedHalf. }
  destruct (suspicious_returned w es w' Hrun) as [_ Hes].
  assert (Hs : StronglySorted
                 (fun a b => clampedHalf (e_similarPostingsCount b)
                             <= clampedHalf (e_similarPostingsCount a)) es).
  { rewrite Hes. apply sortByScore_sorted.
    rewrite <- (sortByScore_perm _), <- Hes. exact Hscored. }
  clear Hes Hrun. induction Hs as [|a l _ IH Ha]; [constructor|].
  apply Forall_cons in Hscored as [Hsa Hsl].
  constructor; [exact (IH Hsl)|].
  rewrite List.Forall_forall in *. intros b Hb.
  rewrite Hsa, (Hsl b Hb). cbn [JS.lt].
  apply negb_false_iff, Qle_bool_iff. rewrite <- Zle_Qle. exact (Ha b Hb).
Qed.

(** X17.  [getSuspiciousCompanies] never writes, and its outcome is decided
    by the scan and the names: a rejected scan is thrown as such; otherwise
    one retained item under a name that object literals inherit makes the
    whole call throw a [TypeError]; otherwise the call returns. *)
Theorem suspicious_companies_outcome w :
  let items := retained (table w) in
  let r := getSuspiciousCompanies env w in
  table r.2 = table w /\ bucket r.2 = bucket w /\
  (rejects env (length (calls w)) = true -> r.1 = Thrown (Rejected Scan)) /\
  (rejects env (length (calls w)) = false ->
   Exists (fun x => p_companyName x ∈ inheritedNames) items ->
   r.1 = Thrown TypeError) /\
  (rejects env (length (calls w)) = false ->
   Forall (fun x => p_companyName x ∉ inheritedNames) items ->
   exists es, r.1 = Returned es).
Proof.
  cbn zeta.
  unfold getSuspiciousCompanies, bind, dynamoScan, awsCall. fold (retained (table w)).
  destruct (rejects env (length (calls w))).
  - cbn. repeat split; try discriminate; reflexivity.
  - destruct (decide (Exists (fun x => p_companyName x ∈ inheritedNames)
                             (retained (table w)))) as [Hex|Hnex].
    + rewrite (groupItems_inherited _ _ Hex). cbn.
      repeat split; try discriminate; try reflexivity.
      intros _ Hall. exfalso. revert Hex. apply Forall_not_Exists. exact Hall.
    + apply not_Exists_Forall in Hnex; [|intros x; apply _].
      pose proof (groupItems_groupsOf _ [] Hnex) as Hg.
      change (groupsOf []) with (@nil (string * CompanyGroup)) in Hg.
      rewrite Hg. cbn.
      repeat split; try discriminate; eauto.
      intros _ Hex. exfalso. revert Hex. apply Forall_not_Exists. exact Hnex.
Qed.

End FleetFurther.

Lemma suspicion_score_is_clamped_half_witness :
  exists es w',
    Fleet.getSuspiciousCompanies Sample.quiet Cases.twoCompanies = (Returned es, w') /\
    Forall (fun e => 2 <= FleetSpec.clampedHalf (Fleet.e_similarPostingsCount e) <= 10) es.
Proof.
  destruct (Fleet.getSuspiciousCompanies Sample.quiet Cases.twoCompanies)
    as [[es|e] w'] eqn:E.
  - exists es, w'. split; [reflexivity|].
    eapply Forall_impl; [exact (suspicion_score_is_clamped_half _ _ _ _ E)|].
    cbn. intros e [_ H]. exact H.
  - vm_compute in E. discriminate E.
Defined.

Lemma one_entry_per_company_witness :
  exists es w',
    Fleet.getSuspiciousCompanies Sample.quiet Cases.twoCompanies = (Returned es, w') /\
    NoDup (map Fleet.e_companyName es) /\
    (In "globex"%string (map Fleet.e_companyName es)) /\
    ~ In "initech"%string (map Fleet.e_companyName es).
Proof.
  destruct (Fleet.getSuspiciousCompanies Sample.quiet Cases.twoCompanies)
    as [[es|e] w'] eqn:E.
  - exists es, w'. split; [reflexivity|].
    destruct (one_entry_per_company _ _ _ _ E) as (Hnd & Hin & _).
    split; [exact Hnd|]. split.
    + apply Hin. vm_compute. right. left. reflexivity.
    + intros H. apply Hin in H. vm_compute in H.
      repeat destruct H as [H|H]; try discriminate H. exact H.
  - vm_compute in E. discriminate E.
Defined.

Lemma entries_by_decreasing_score_witness :
  exists es w',
    Fleet.getSuspiciousCompanies Sample.quiet Cases.twoCompanies = (Returned es, w') /\
    map Fleet.e_companyName es = ["globex"; "acme"]%string /\
    StronglySorted
      (fun a b => JS.lt (Fleet.suspicionScore a) (Fleet.suspicionScore b) = false) es.
Proof.
  destruct (Fleet.getSuspiciousCompanies Sample.quiet Cases.twoCompanies)
    as [[es|e] w'] eqn:E.
  - exists es, w'. split; [reflexivity|]. split.
    + vm_compute in E. injection E as <- _. reflexivity.
    + exact (entries_by_decreasing_score _ _ _ _ E).
  - vm_compute in E. discriminate E.
Defined.

Lemma suspicious_companies_outcome_witness :
  (Fleet.getSuspiciousCompanies Sample.quiet
     (mkWorld [mkPosting "1" "constructor" "Builder" "Rome" "Build" 0 (Some 0)
                 ["a"; "b"; "c"; "d"]%string "u"] [] [] 0 0)).1
  = Thrown TypeError.
Proof.
  apply (suspicious_companies_outcome Sample.quiet
           (mkWorld [mkPosting "1" "constructor" "Builder" "Rome" "Build" 0 (Some 0)
                       ["a"; "b"; "c"; "d"]%string "u"] [] [] 0 0)).
  - reflexivity.
  - left. vm_compute. left.
Defined.

(** ** Properties of the controller *)

Section ControllerFacts.
Import Controller.

Variable compareTwoStrings : string -> string -> Q.
Variable env : Oracle.
Variable messageOf : Exn -> string.
Variables Analysis Stored Feedback : Type.
Variable analyzeJobService : CompanyData -> M Analysis.
Variable getAnalysisByIdService : string -> M Stored.
Variable storedUserId : Stored -> option string.
Variable processFeedback : FeedbackData -> M Feedback.

(** X18.  A request to analyse a posting that lacks its title, its company
    or its description, or carries one of them empty, is answered 400
    before anything else happens: no service is called, whoever the caller
    is. *)
Theorem analyzeJob_requires_three_fields req w :
  falsy (a_jobTitle req) || falsy (a_company req) || falsy (a_jobDescription req)
  = true ->
  analyzeJob compareTwoStrings env messageOf Analysis analyzeJobService req w
  = (Returned (mkResponse 400
                 (Failure "Job title, company, and description are required")), w).
Proof.
  unfold analyzeJob, tryCatch, ret. intros H.
  destruct (a_jobTitle req), (a_company req), (a_jobDescription req);
    try reflexivity.
  rewrite H. reflexivity.
Qed.

(** X19.  The handler always answers, with 200, 400 or 500.  It answers 200
    only when the analyser and then the detector have both returned for the
    submitted fields under the caller's identifier, and the answer carries
    the detector's patterns and similar postings. *)
Theorem analyzeJob_answers req w :
  exists resp w',
    analyzeJob compareTwoStrings env messageOf Analysis analyzeJobService req w
    = (Returned resp, w') /\
    (status resp = 200 \/ status resp = 400 \/ status resp = 500) /\
    (status resp = 200 ->
     exists u jobTitle company jobDescription a w1 d,
       a_user req = Some u /\
       a_jobTitle req = Some jobTitle /\ a_company req = Some company /\
       a_jobDescription req = Some jobDescription /\
       let data := mkCompanyData company jobTitle (a_location req) jobDescription
                     (Some (sub u)) in
       analyzeJobService data w = (Returned a, w1) /\
       detectCompanyPatterns compareTwoStrings env data w1 = (Returned d, w') /\
       reply resp = Payload (mkCombined a (d_patterns d) (d_similarJobs d))).
Proof.
  unfold analyzeJob, tryCatch, internalError, ret, bind, userOf.
  destruct (a_jobTitle req) as [jt|] eqn:Hjt;
    [|eexists _, _; split; [reflexivity|]; cbn; split; [auto|discriminate]].
  destruct (a_company req) as [c|] eqn:Hc;
    [|eexists _, _; split; [reflexivity|]; cbn; split; [auto|discriminate]].
  destruct (a_jobDescription req) as [jd|] eqn:Hjd;
    [|eexists _, _; split; [reflexivity|]; cbn; split; [auto|discriminate]].
  destruct (falsy (Some jt) || falsy (Some c) || falsy (Some jd));
    [eexists _, _; split; [reflexivity|]; cbn; split; [auto|discriminate]|].
  destruct (a_user req) as [u|] eqn:Hu;
    [|eexists _, _; split; [reflexivity|]; cbn; split; [auto|discriminate]].
  destruct (analyzeJobService _ w) as [[a|e] w1] eqn:Ha;
    [|eexists _, _; split; [reflexivity|]; cbn; split; [auto|discriminate]].
  destruct (detectCompanyPatterns _ _ _ w1) as [[d|e] w2] eqn:Hd;
    [|eexists _, _; split; [reflexivity|]; cbn; split; [auto|discriminate]].
  eexists _, _. split; [reflexivity|]. cbn. split; [auto|]. intros _.
  exists u, jt, c, jd, a, w1, d. repeat split; assumption.
Qed.

(** X20.  Only an administrator obtains the list of suspicious companies: the
    handler answers 200 only to a caller whose permissions include [admin],
    with the list the service returned; a caller without it is answered 403
    and no scan is made. *)
Theorem suspicious_companies_needs_admin user w :
  exists resp w',
    Controller.getSuspiciousCompanies env messageOf user w = (Returned resp, w') /\
    (status resp = 200 ->
     exists u es,
       user = Some u /\ "admin"%string ∈ permissions u /\
       Fleet.getSuspiciousCompanies env w = (Returned es, w') /\
       reply resp = Payload es) /\
    (forall u, user = Some u -> "admin"%string ∉ permissions u ->
       resp = mkResponse 403 (Failure "Access denied") /\ w' = w).
Proof.
  unfold Controller.getSuspiciousCompanies, tryCatch, internalError, ret, bind, userOf.
  destruct user as [u|];
    [|eexists _, _; split; [reflexivity|]; cbn; split; [discriminate|];
      intros ? [=]].
  case_bool_decide as Hadmin; cbn [negb].
  - destruct (Fleet.getSuspiciousCompanies env w) as [[es|e] w1] eqn:Hs;
      eexists _, _; (split; [reflexivity|]); cbn; split;
      try discriminate; try (intros ? [= <-] ?; contradiction).
    intros _. exists u, es. repeat split; assumption.
  - eexists _, _. split; [reflexivity|]. cbn. split; [discriminate|].
    intros ? _ _. split; reflexivity.
Qed.

(** X21.  Feedback is refused with 400, and the processor is not called,
    when the rating is absent or is a number below 1 or above 5.  A rating
    between 1 and 5, whole or not, and a rating that is not a number at all,
    pass the check: the answer is then the processor's, 200 or 500. *)
Theorem feedback_rating_gate req u w :
  f_user req = Some u ->
  let data := mkFeedbackData (f_id req) (sub u) (f_rating req)
                (f_comments req) (f_outcome req) in
  let refused := (Returned (mkResponse 400 (Failure "Rating must be between 1 and 5")), w) in
  let passed :=
    match processFeedback data w with
    | (Returned result, w') => (Returned (mkResponse 200 (Payload result)), w')
    | (Thrown e, w') =>
        (Returned (mkResponse 500
                     (Failure (if String.eqb (messageOf e) ""
                               then "Internal server error"%string
                               else messageOf e))), w')
    end in
  submitFeedback messageOf Feedback processFeedback req w
  = match f_rating req with
    | None => refused
    | Some JS.NaN => passed
    | Some (JS.Num q) =>
        if Qle_bool 1 q && Qle_bool q 5 then passed else refused
    end.
Proof.
  intros Hu. cbn zeta.
  unfold submitFeedback, tryCatch, internalError, ret, bind, userOf, badRating.
  rewrite Hu.
  destruct (f_rating req) as [[|q]|]; cbn [JS.lt JS.ofZ orb]; [| |reflexivity].
  - destruct (processFeedback _ w) as [[r|e] w']; reflexivity.
  - change (inject_Z 1) with 1%Q. change (inject_Z 5) with 5%Q.
    destruct (Qle_bool 1 q), (Qle_bool q 5); cbn [negb orb andb]; try reflexivity.
    destruct (processFeedback _ w) as [[r|e] w']; reflexivity.
Qed.

(** X22.  An analysis is handed out only to its owner: the handler answers
    200 only when the stored analysis carries the caller's identifier, and
    it always answers. *)
Theorem analysis_only_for_owner user id w :
  exists resp w',
    getAnalysisById messageOf Stored getAnalysisByIdService storedUserId user id w
    = (Returned resp, w') /\
    (status resp = 200 ->
     exists u analysis,
       user = Some u /\
       getAnalysisByIdService id w = (Returned analysis, w') /\
       storedUserId analysis = Some (sub u) /\
       reply resp = Payload analysis).
Proof.
  unfold getAnalysisById, tryCatch, internalError, ret, bind, userOf.
  destruct user as [u|].
  - destruct (getAnalysisByIdService id w) as [[a|e] w1] eqn:Hs.
    + case_bool_decide as Hown; eexists _, _; (split; [reflexivity|]); cbn;
        [|discriminate].
      intros _. exists u, a. repeat split; assumption.
    + destruct (String.eqb (messageOf e) "Analysis not found");
        eexists _, _; (split; [reflexivity|]); cbn; discriminate.
  - destruct (String.eqb (messageOf TypeError) "Analysis not found");
      eexists _, _; (split; [reflexivity|]); cbn; discriminate.
Qed.

End ControllerFacts.

(** ** Properties of the front end *)

Lemma clamp_of_rounded (r : Z) :
  ScoreIndicator.max (JS.ofZ 1) (JS.min (JS.ofZ 10) (JS.Num (inject_Z r)))
  = JS.Num (inject_Z (Z.max 1 (Z.min 10 r))).
Proof.
  unfold ScoreIndicator.max, JS.min, JS.ofZ. f_equal.
  destruct (Qle_bool (inject_Z 10) (inject_Z r)) eqn:H10.
  - apply Qle_bool_iff in H10. rewrite <- Zle_Qle in H10.
    change (Qle_bool (inject_Z 1) (inject_Z 10)) with true. cbn iota.
    f_equal. lia.
  - assert (r < 10).
    { destruct (Z.lt_ge_cases r 10) as [Hlt|Hge]; [exact Hlt|].
      rewrite Zle_Qle in Hge. apply Qle_bool_iff in Hge. congruence. }
    destruct (Qle_bool (inject_Z 1) (inject_Z r)) eqn:H1.
    + apply Qle_bool_iff in H1. rewrite <- Zle_Qle in H1. f_equal. lia.
    + assert (r < 1).
      { destruct (Z.lt_ge_cases r 1) as [Hlt|Hge]; [exact Hlt|].
        rewrite Zle_Qle in Hge. apply Qle_bool_iff in Hge. congruence. }
      f_equal. lia.
Qed.

Lemma le_of_integers (a b : Z) :
  ScoreIndicator.le (JS.Num (inject_Z a)) (JS.ofZ b) = (a <=? b).
Proof.
  unfold ScoreIndicator.le, JS.ofZ.
  destruct (Z.leb_spec a b) as [H|H].
  - apply Qle_bool_iff. rewrite <- Zle_Qle. exact H.
  - destruct (Qle_bool _ _) eqn:Hq; [|reflexivity].
    apply Qle_bool_iff in Hq. rewrite <- Zle_Qle in Hq. lia.
Qed.

(** X23.  The indicator shows the rounded score brought into the range 1 to
    10, whatever number it is given, and labels it Low up to 3, Medium up to
    6 and High above; a score that is not a number is shown as it is, under
    the label High. *)
Theorem indicator_clamps_and_labels size :
  (forall q,
     let r := JS.roundQ q in
     let v := ScoreIndicator.render (JS.Num q) size in
     ScoreIndicator.validScore v = JS.Num (inject_Z (Z.max 1 (Z.min 10 r))) /\
     1 <= Z.max 1 (Z.min 10 r) <= 10 /\
     ScoreIndicator.label v
     = (if (r <=? 3)%Z then "Low Authenticity"%string
        else if (r <=? 6)%Z then "Medium Authenticity"%string
        else "High Authenticity"%string)) /\
  ScoreIndicator.validScore (ScoreIndicator.render JS.NaN size) = JS.NaN /\
  ScoreIndicator.label (ScoreIndicator.render JS.NaN size)
  = "High Authenticity"%string.
Proof.
  split.
  - intros q r v. subst v r. unfold ScoreIndicator.render. cbn [JS.round].
    rewrite clamp_of_rounded, !le_of_integers.
    destruct size as [[| |]|];
      (split; [|split; [lia|]]);
      repeat match goal with
             | |- context [?a <=? ?b] => destruct (Z.leb_spec a b)
             end; cbn; try reflexivity; lia.
  - destruct size as [[| |]|]; split; reflexivity.
Qed.

Section SliceFacts.
Import AnalysisSlice.

(** X24.  Removing from the store the analysis that was just added gives
    back the store as it was, provided no other analysis carries its
    identifier. *)
Theorem remove_undoes_add state a :
  Forall (fun b => AnalysisSlice.id b <> AnalysisSlice.id a) (analyses state) ->
  removeAnalysis (addAnalysis state a) (AnalysisSlice.id a) = state.
Proof.
  intros Hfresh. destruct state as [l ld er]. unfold removeAnalysis, addAnalysis.
  cbn [analyses loading error List.filter]. rewrite String.eqb_refl. cbn [negb].
  f_equal. cbn [analyses] in Hfresh.
  induction Hfresh as [|b l Hb _ IH]; [reflexivity|].
  cbn [List.filter]. destruct (String.eqb_spec (AnalysisSlice.id b) (AnalysisSlice.id a));
    [contradiction|]. cbn [negb]. f_equal. exact IH.
Qed.

Lemma findIndex_None i l :
  findIndex i l = None -> Forall (fun b => AnalysisSlice.id b <> i) l.
Proof.
  induction l as [|a l IH]; cbn [findIndex]; [constructor|].
  destruct (String.eqb_spec (AnalysisSlice.id a) i); [discriminate|].
  destruct (findIndex i l); [discriminate|]. intros _. constructor; auto.
Qed.

(** X25.  An update for an identifier that no analysis carries changes
    nothing; otherwise it replaces the first analysis with that identifier by
    its merge with the updates and leaves every other analysis, and the order,
    as they were. *)
Theorem update_touches_the_first_match state i updates :
  (Forall (fun b => AnalysisSlice.id b <> i) (analyses state) /\
   updateAnalysis state i updates = state) \/
  (exists before old after,
     analyses state = before ++ old :: after /\
     Forall (fun b => AnalysisSlice.id b <> i) before /\
     AnalysisSlice.id old = i /\
     updateAnalysis state i updates
     = mkState (before ++ merge old updates :: after) (loading state) (error state)).
Proof.
  destruct state as [l ld er]. unfold updateAnalysis. cbn [analyses loading error].
  induction l as [|a l IH].
  - left. split; [constructor|reflexivity].
  - cbn [findIndex]. destruct (String.eqb_spec (AnalysisSlice.id a) i) as [Heq|Hne].
    + right. exists [], a, l. cbn. repeat split; [constructor|exact Heq].
    + destruct IH as [[Hall Hsame]|(before & old & after & Hl & Hb & Ho & Hu)].
      * left. split; [constructor; assumption|].
        destruct (findIndex i l) as [n|]; [|reflexivity].
        cbn [option_map]. change ((a :: l) !! S n) with (l !! n).
        destruct (l !! n) as [old|] eqn:Hn; [|reflexivity].
        change (<[S n:=merge old updates]> (a :: l))
          with (a :: <[n:=merge old updates]> l).
        injection Hsame as Hsame. rewrite Hsame. reflexivity.
      * right. exists (a :: before), old, after.
        split; [rewrite Hl; reflexivity|]. split; [constructor; assumption|].
        split; [exact Ho|].
        destruct (findIndex i l) as [n|] eqn:Hfind;
          [|exfalso; apply findIndex_None in Hfind; rewrite Hl in Hfind;
            apply Forall_app in Hfind as [_ Hfind];
            apply Forall_cons in Hfind as [Hfind _]; contradiction].
        cbn [option_map]. change ((a :: l) !! S n) with (l !! n).
        destruct (l !! n) as [old'|] eqn:Hn.
        -- change (<[S n:=merge old' updates]> (a :: l))
             with (a :: <[n:=merge old' updates]> l).
           injection Hu as Hu. rewrite Hu. reflexivity.
        -- injection Hu as Hu. rewrite Hu. reflexivity.
Qed.

End SliceFacts.

Lemma analyzeJob_requires_three_fields_witness :
  Controller.analyzeJob StringSimilarity.compareTwoStrings Sample.quiet
    (fun _ => ""%string) unit (fun _ => ret tt)
    (Controller.mkAnalyzeRequest None (Some "Engineer"%string) (Some ""%string)
       "Berlin" (Some Sample.advert))
    Sample.oneWorld
  = (Returned (Controller.mkResponse 400
                 (Controller.Failure
                    "Job title, company, and description are required")),
     Sample.oneWorld).
Proof.
  apply analyzeJob_requires_three_fields. reflexivity.
Defined.

Lemma feedback_rating_gate_witness :
  Controller.submitFeedback (fun _ => ""%string) (option JS.number)
    (fun d => ret (Controller.fd_rating d))
    (Controller.mkFeedbackRequest (Some (Controller.mkUser "u1" []))
       "analysis-1" (Some (JS.Num (7 # 1))) None None)
    Sample.emptyWorld
  = (Returned (Controller.mkResponse 400
                 (Controller.Failure "Rating must be between 1 and 5")),
     Sample.emptyWorld).
Proof.
  exact (feedback_rating_gate (fun _ => ""%string) (option JS.number)
           (fun d => ret (Controller.fd_rating d))
           (Controller.mkFeedbackRequest (Some (Controller.mkUser "u1" []))
              "analysis-1" (Some (JS.Num (7 # 1))) None None)
           (Controller.mkUser "u1" []) Sample.emptyWorld eq_refl).
Defined.

Lemma remove_undoes_add_witness :
  let a := AnalysisSlice.mkJobAnalysis "a2" (JS.Num (7 # 1)) [] [] "fine" "t2" in
  let s := AnalysisSlice.mkState
             [AnalysisSlice.mkJobAnalysis "a1" (JS.Num (3 # 1)) [] [] "vague" "t1"]
             false None in
  AnalysisSlice.removeAnalysis (AnalysisSlice.addAnalysis s a) "a2" = s.
Proof.
  intros a s. apply (remove_undoes_add s a).
  repeat constructor. discriminate.
Defined.

(** ** Findings, score and archive of a run *)

Lemma findObject_putObjectAt_eq o b :
  findObject (o_company o) (o_timestamp o) (putObjectAt o b) = Some o.
Proof.
  unfold findObject.
  induction b as [|x b IH]; cbn [putObjectAt find].
  - rewrite String.eqb_refl, Z.eqb_refl. reflexivity.
  - destruct (String.eqb (o_company x) (o_company o) && (o_timestamp x =? o_timestamp o))
      eqn:Hx; cbn [find].
    + rewrite String.eqb_refl, Z.eqb_refl. reflexivity.
    + rewrite Hx. exact IH.
Qed.

Lemma findObject_putObjectAt_ne c t o b :
  (c, t) <> (o_company o, o_timestamp o) ->
  findObject c t (putObjectAt o b) = findObject c t b.
Proof.
  intros Hne. unfold findObject.
  assert (Ho : String.eqb (o_company o) c && (o_timestamp o =? t) = false).
  { destruct (String.eqb_spec (o_company o) c) as [<-|]; [|reflexivity].
    destruct (Z.eqb_spec (o_timestamp o) t) as [<-|]; [|reflexivity].
    contradiction. }
  induction b as [|x b IH]; cbn [putObjectAt find].
  - rewrite Ho. reflexivity.
  - destruct (String.eqb (o_company x) (o_company o) && (o_timestamp x =? o_timestamp o))
      eqn:Hx; cbn [find].
    + rewrite Ho. apply andb_true_iff in Hx as [H1 H2].
      apply String.eqb_eq in H1. apply Z.eqb_eq in H2. rewrite H1, H2, Ho.
      reflexivity.
    + destruct (String.eqb (o_company x) c && (o_timestamp x =? t));
        [reflexivity|exact IH].
Qed.

Section RunFurther.

Variable compareTwoStrings : string -> string -> Q.
Variable env : Oracle.

(** X26.  In what a run returns the score and the findings go together: the
    score is 10 less 2 for an open duration above 90 days, 2 for more than
    three similar postings and 1 for the frequency rule; there are as many
    findings as rules that fired, none exactly when the score is 10; and
    [recycledDescriptions] is set exactly when more than three postings are
    similar. *)
Theorem score_and_findings_agree data w d w' :
  detectCompanyPatterns compareTwoStrings env data w = (Returned d, w') ->
  let p := d_patterns d in
  let r1 := SUSPICIOUS_REPOST_DAYS <? longestOpenDays p in
  let r2 := (3 <? similarJobCount p)%nat in
  let r3 := (averagePostingFrequency p <? 7) && (5 <? recentPostings p)%nat in
  confidenceScore p
  = 10 - (if r1 then 2 else 0) - (if r2 then 2 else 0) - (if r3 then 1 else 0) /\
  length (suspiciousPatterns p)
  = ((if r1 then 1 else 0) + (if r2 then 1 else 0) + (if r3 then 1 else 0))%nat /\
  (suspiciousPatterns p = [] <-> confidenceScore p = 10) /\
  recycledDescriptions p = r2.
Proof.
  intros Hrun.
  destruct (run_returned _ _ _ _ _ _ Hrun) as (longest & n & _ & ->).
  cbn [d_patterns]. unfold analysePatterns.
  match goal with |- context [applyRules ?p] =>
    destruct (applyRules_spec p) as (_ & Hrp & Hsc & Hlo & Hav & Hre & Hcs & Hsp)
  end.
  cbn zeta. rewrite Hrp, Hsc, Hlo, Hav, Hre, Hcs, Hsp.
  cbn [recentPostings similarJobCount longestOpenDays averagePostingFrequency
       recycledDescriptions confidenceScore suspiciousPatterns app orb].
  repeat match goal with
         | |- context [if ?b then _ else _] =>
             let E := fresh "E" in destruct b eqn:E
         end;
    cbn [andb app length]; repeat split; try reflexivity; try lia;
    try discriminate; intros H; try discriminate H; lia.
Qed.

(** X27.  A run that returns has archived in the bucket, under the
    normalised company name and the timestamp it returns, the very patterns
    and similar postings it returns, and has left every object under another
    key as it was. *)
Theorem returned_summary_is_archived data w d w' :
  detectCompanyPatterns compareTwoStrings env data w = (Returned d, w') ->
  let nc := normalizeCompanyName (company data) in
  findObject nc (d_timestamp d) (bucket w')
  = Some (mkS3Object nc (d_timestamp d) (d_patterns d) (d_similarJobs d)) /\
  forall c t, (c, t) <> (nc, d_timestamp d) ->
    findObject c t (bucket w') = findObject c t (bucket w).
Proof.
  intros Hrun nc.
  destruct (run_cases compareTwoStrings env data w) as (longest & n & _ & Hc).
  cbn zeta in Hc. rewrite Hrun in Hc.
  repeat match type of Hc with
         | context [if ?b then _ else _] => destruct b
         end; try discriminate Hc.
  injection Hc as -> ->. cbn [bucket d_timestamp d_patterns d_similarJobs].
  split.
  - apply (findObject_putObjectAt_eq (mkS3Object _ _ _ _)).
  - intros c t Hne. apply findObject_putObjectAt_ne. exact Hne.
Qed.

End RunFurther.

Lemma score_and_findings_agree_witness :
  exists d w',
    Sample.detect Sample.quiet Sample.fourWorld = (Returned d, w') /\
    confidenceScore (d_patterns d) = 8 /\
    length (suspiciousPatterns (d_patterns d)) = 1%nat.
Proof.
  destruct (Sample.detect Sample.quiet Sample.fourWorld) as [[d|e] w'] eqn:E.
  - exists d, w'. split; [reflexivity|].
    destruct (score_and_findings_agree _ _ _ _ _ _ E) as (Hs & Hl & _).
    rewrite Hs, Hl. vm_compute in E. injection E as <- _. split; reflexivity.
  - vm_compute in E. discriminate E.
Defined.

Lemma returned_summary_is_archived_witness :
  exists d w',
    Sample.detect Sample.quiet Sample.oneWorld = (Returned d, w') /\
    exists o, findObject "acme" (200 * Sample.day) (bucket w') = Some o /\
              o_patterns o = d_patterns d.
Proof.
  destruct (Sample.detect Sample.quiet Sample.oneWorld) as [[d|e] w'] eqn:E.
  - exists d, w'. split; [reflexivity|].
    destruct (returned_summary_is_archived _ _ _ _ _ _ E) as [Hf _].
    exists (mkS3Object (normalizeCompanyName (company Sample.request))
              (d_timestamp d) (d_patterns d) (d_similarJobs d)).
    split; [|reflexivity].
    replace (200 * Sample.day) with (d_timestamp d)
      by (vm_compute in E; injection E as <- _; reflexivity).
    exact Hf.
  - vm_compute in E. discriminate E.
Defined.
